(** * Face enrollment wizard (src/app.py): a shallow embedding and its properties

    The Streamlit script of [src/app.py] is embedded as a function from the
    widget values of one script run and the persistent world (session state
    and Python object store) to an outcome and a new world.  The three helper
    functions [validate_single_face], [overlay_face_outline] and [build_zip]
    are embedded in the same monad.  The external libraries (OpenCV's cascade
    detector and rasteriser, Pillow's decoder and JPEG encoder, [json.dumps])
    are the fields of one interface record, [External]. *)

From Stdlib Require Import ZArith List String Ascii Bool Lia.
From Stdlib Require Import Floats.SpecFloat.
From stdpp Require Import base option list strings gmap.

Local Open Scope string_scope.
Local Open Scope list_scope.
Local Open Scope Z_scope.

(** ** Python exceptions *)

Inductive exn : Type :=
| IndexError
| AttributeError (attr : string)
| TypeError
| OverflowError
| ValueError
| cv2_error (msg : string)
| OSError (msg : string)
| UnidentifiedImageError
| StreamlitAPIException.

Inductive result (A : Type) : Type :=
| Ok (a : A)
| Err (e : exn).
Arguments Ok {A} a.
Arguments Err {A} e.

(** ** Python numbers: [int] is [Z], [float] is IEEE 754 binary64 *)

Module PyNum.

Definition prec : Z := 53.
Definition emax : Z := 1024.

Definition float := spec_float.

(** [float(z)] for a Python int: round to nearest even, [OverflowError]
    when the integer is too large for a double. *)
Definition float_of_int (z : Z) : result float :=
  match binary_normalize prec emax z 0 false with
  | S754_infinity _ => Err OverflowError
  | f => Ok f
  end.

Definition fmul (x y : float) : float := SFmul prec emax x y.
Definition fdiv (x y : float) : float := SFdiv prec emax x y.

(** The double a decimal literal [num/den] denotes: the correctly rounded
    quotient of two exactly representable integers. *)
Definition decimal (num den : Z) : float :=
  fdiv (binary_normalize prec emax num 0 false)
       (binary_normalize prec emax den 0 false).

(** The three float literals of the source, as bit patterns. *)
Definition lit_0_25 : float := S754_finite false 4503599627370496 (-54).
Definition lit_0_35 : float := S754_finite false 6305039478318694 (-54).
Definition lit_1_2 : float := S754_finite false 5404319552844595 (-52).

(** [int(x)] for a float: truncation toward zero. *)
Definition py_int (x : float) : result Z :=
  match x with
  | S754_zero _ => Ok 0
  | S754_finite s m e =>
      let a := match e with
               | Zneg p => Z.shiftr (Zpos m) (Zpos p)
               | _ => Z.shiftl (Zpos m) e
               end in
      Ok (if s then - a else a)
  | S754_infinity _ => Err OverflowError
  | S754_nan => Err ValueError
  end.

(** [int(n * c)] for an int [n] and a float [c]. *)
Definition int_of_scaled (n : Z) (c : float) : result Z :=
  match float_of_int n with
  | Ok f => py_int (fmul f c)
  | Err e => Err e
  end.

(** Python's floor division [a // b] on ints, for a positive divisor. *)
Definition floordiv (a b : Z) : Z := a / b.

End PyNum.

(** ** Python containers *)

(** A [dict] with string keys: insertion ordered, assignment to a present
    key replaces the value in place, assignment to an absent key appends. *)
Definition dict (V : Type) : Type := list (string * V).

Fixpoint dict_set {V : Type} (k : string) (v : V) (d : dict V) : dict V :=
  match d with
  | [] => [(k, v)]
  | (k', v') :: d' =>
      if String.eqb k k' then (k', v) :: d' else (k', v') :: dict_set k v d'
  end.

Definition dict_keys {V : Type} (d : dict V) : list string := fst <$> d.

(** [l[i]] on a Python list: negative indices count from the end. *)
Definition py_index {A : Type} (l : list A) (i : Z) : result A :=
  let n := Z.of_nat (length l) in
  let j := if i <? 0 then i + n else i in
  if (0 <=? j) && (j <? n)
  then match l !! Z.to_nat j with
       | Some x => Ok x
       | None => Err IndexError
       end
  else Err IndexError.

(** ** Images and the object store *)

Definition pixel : Type := Z * Z * Z.

(** A three-channel raster, as the camera widget delivers its frames (RGB);
    [np.array(img).shape] is [(height, width, 3)]. *)
Record raster : Type := mkRaster {
  height : Z;
  width : Z;
  pixels : list pixel
}.

Record gray_raster : Type := mkGray {
  g_height : Z;
  g_width : Z;
  g_data : list Z
}.

Definition loc : Type := positive.

Inductive pyobj : Type :=
| PilImage (r : raster)
| NdArray (r : raster)
| NdGray (g : gray_raster).

Definition rect : Type := Z * Z * Z * Z.
Definition bytes : Type := list Byte.byte.

(** The arguments of one [cv2.ellipse] call. *)
Record ellipse_call : Type := mkEllipse {
  e_target : loc;
  e_center : Z * Z;
  e_axes : Z * Z;
  e_angle : Z;
  e_start : Z;
  e_end : Z;
  e_color : pixel;
  e_thickness : Z
}.

(** ** JSON values and the metadata record *)

(** The values the metadata record holds: strings and lists of strings.
    A JSON object is a [dict] of such values, in the order of the literal. *)
Inductive json : Type :=
| JStr (s : string)
| JStrList (l : list string).

Definition archive : Type := list (string * bytes).

(** ** [datetime] *)

Record datetime : Type := mkDatetime {
  year : Z; month : Z; day : Z;
  hour : Z; minute : Z; second : Z; microsecond : Z
}.

Definition digit_char (d : Z) : ascii := ascii_of_nat (48 + Z.to_nat (d mod 10)).

(** Zero-padded decimal of fixed width, as [%0nd] prints an in-range value. *)
Fixpoint zero_pad (n : nat) (z : Z) : string :=
  match n with
  | O => ""
  | S n' => zero_pad n' (z / 10) +:+ String (digit_char z) ""
  end.

(** [datetime.isoformat()] of a naive datetime: the fraction is printed only
    when the microsecond field is not zero. *)
Definition isoformat (t : datetime) : string :=
  zero_pad 4 (year t) +:+ "-" +:+ zero_pad 2 (month t) +:+ "-" +:+
  zero_pad 2 (day t) +:+ "T" +:+ zero_pad 2 (hour t) +:+ ":" +:+
  zero_pad 2 (minute t) +:+ ":" +:+ zero_pad 2 (second t) +:+
  (if microsecond t =? 0 then "" else "." +:+ zero_pad 6 (microsecond t)).

(** ** The external libraries *)

Class External : Type := {
  (** an uploaded camera frame, as the widget hands it over *)
  upload : Type;
  (** [Image.open]: decode the frame *)
  image_open : upload → result raster;
  (** per-pixel weights of [cv2.COLOR_RGB2GRAY] *)
  gray_of_rgb : pixel → Z;
  (** [FACE_CASCADE.detectMultiScale(gray, scaleFactor, minNeighbors)] *)
  detectMultiScale : gray_raster → PyNum.float → Z → result (list rect);
  (** which pixels (row, column) of an array of the given height and width
      a [cv2.ellipse] call paints *)
  ellipse_covers : Z → Z → ellipse_call → Z → Z → bool;
  (** [img.save(buf, format="JPEG")] *)
  jpeg_encode : raster → result bytes;
  (** [json.dumps(value, indent=n)] *)
  json_dumps : dict json → Z → string
}.

(** ** Session state, user interface and the world of a script run *)

(** [st.session_state]: every attribute is absent until it is first set. *)
Record session_state : Type := mkSession {
  ss_page : option string;
  ss_step : option Z;
  ss_images : option (dict loc);
  ss_name : option string;
  ss_emp_id : option string
}.

(** What one script run puts on the page. *)
Inductive ui_event : Type :=
| UiTitle (text : string)
| UiError (text : string)
| UiProgress (num den : Z)
| UiSubheader (step_no : Z) (pose : string)
| UiInfo (text : string)
| UiImage (img : loc) (caption : string)
| UiSuccess (text : string)
| UiDownload (label : string) (data : archive) (file_name mime : string).

Record world : Type := mkWorld {
  session : session_state;
  heap : gmap loc pyobj;
  ui : list ui_event;
  drawn : list ellipse_call
}.

Definition set_session (f : session_state → session_state) (w : world) : world :=
  mkWorld (f (session w)) (heap w) (ui w) (drawn w).
Definition set_heap (f : gmap loc pyobj → gmap loc pyobj) (w : world) : world :=
  mkWorld (session w) (f (heap w)) (ui w) (drawn w).
Definition add_ui (e : ui_event) (w : world) : world :=
  mkWorld (session w) (heap w) (ui w ++ [e]) (drawn w).
Definition add_drawn (c : ellipse_call) (w : world) : world :=
  mkWorld (session w) (heap w) (ui w) (drawn w ++ [c]).

Definition with_page (v : string) (s : session_state) : session_state :=
  mkSession (Some v) (ss_step s) (ss_images s) (ss_name s) (ss_emp_id s).
Definition with_step (v : Z) (s : session_state) : session_state :=
  mkSession (ss_page s) (Some v) (ss_images s) (ss_name s) (ss_emp_id s).
Definition with_images (v : dict loc) (s : session_state) : session_state :=
  mkSession (ss_page s) (ss_step s) (Some v) (ss_name s) (ss_emp_id s).
Definition with_name (v : string) (s : session_state) : session_state :=
  mkSession (ss_page s) (ss_step s) (ss_images s) (Some v) (ss_emp_id s).
Definition with_emp_id (v : string) (s : session_state) : session_state :=
  mkSession (ss_page s) (ss_step s) (ss_images s) (ss_name s) (Some v).

(** How a piece of the script ends: with a value, with an exception, or with
    one of Streamlit's two control signals, [st.stop()] and [st.rerun()]. *)
Inductive outcome (A : Type) : Type :=
| Ret (a : A)
| Raise (e : exn)
| StopScript
| RerunScript.
Arguments Ret {A} a.
Arguments Raise {A} e.
Arguments StopScript {A}.
Arguments RerunScript {A}.

Definition M (A : Type) : Type := world → outcome A * world.

#[global] Instance M_ret : MRet M := λ A a w, (Ret a, w).
#[global] Instance M_bind : MBind M := λ A B f m w,
  match m w with
  | (Ret a, w') => f a w'
  | (Raise e, w') => (Raise e, w')
  | (StopScript, w') => (StopScript, w')
  | (RerunScript, w') => (RerunScript, w')
  end.

Definition raise {A : Type} (e : exn) : M A := λ w, (Raise e, w).
Definition st_stop {A : Type} : M A := λ w, (StopScript, w).
Definition st_rerun {A : Type} : M A := λ w, (RerunScript, w).

Definition lift {A : Type} (r : result A) : M A :=
  match r with
  | Ok a => mret a
  | Err e => raise e
  end.

Definition get_session : M session_state := λ w, (Ret (session w), w).
Definition modify_session (f : session_state → session_state) : M unit :=
  λ w, (Ret tt, set_session f w).
Definition emit (e : ui_event) : M unit := λ w, (Ret tt, add_ui e w).

(** Reading an attribute of [st.session_state] that was never set. *)
Definition get_attr {A : Type} (attr : string)
    (proj : session_state → option A) : M A :=
  s ← get_session;
  match proj s with
  | Some v => mret v
  | None => raise (AttributeError attr)
  end.

(** A new Python object: its identity is an address the store does not hold. *)
Definition alloc (o : pyobj) : M loc := λ w,
  let l := fresh (dom (heap w)) in
  (Ret l, set_heap (insert l o) w).

Definition load (l : loc) : M pyobj := λ w,
  match heap w !! l with
  | Some o => (Ret o, w)
  | None => (Raise TypeError, w)
  end.

Definition store (l : loc) (o : pyobj) : M unit := λ w,
  (Ret tt, set_heap (insert l o) w).

Definition log_drawn (c : ellipse_call) : M unit :=
  λ w, (Ret tt, add_drawn c w).

Definition when (b : bool) (m : M unit) : M unit :=
  if b then m else mret tt.

(** [st.progress(num / den)] for ints and a positive [den]: the quotient is
    a float and the call raises unless it lies between 0.0 and 1.0, that
    is unless [0 <= num <= den]; the division itself raises when the
    quotient is too large for a float.  The bar is recorded with both
    numbers. *)
Definition st_progress (num den : Z) : M unit :=
  if (0 <=? num) && (num <=? den) then emit (UiProgress num den)
  else if (2 ^ 1024 - 2 ^ 970) * den <=? Z.abs num then raise OverflowError
  else raise StreamlitAPIException.
#[global] Arguments st_progress : simpl never.

(** [str.upper] on ASCII text, which the pose names are. *)
Definition upper_char (c : ascii) : ascii :=
  let n := nat_of_ascii c in
  if (97 <=? n)%nat && (n <=? 122)%nat then ascii_of_nat (n - 32) else c.

Fixpoint upper (s : string) : string :=
  match s with
  | EmptyString => EmptyString
  | String c s' => String (upper_char c) (upper s')
  end.

(** ** The helpers of [src/app.py] *)

Section Helpers.
Context `{Ext : External}.

Inductive color_code : Type :=
| COLOR_RGB2GRAY
| COLOR_RGB2BGR
| COLOR_BGR2RGB.

Definition is_empty (r : raster) : bool :=
  (height r =? 0) || (width r =? 0).

Definition swap_rb (p : pixel) : pixel :=
  let '(c0, c1, c2) := p in (c2, c1, c0).

(** The array [cv2.COLOR_RGB2BGR] and [cv2.COLOR_BGR2RGB] compute. *)
Definition swap_channels (r : raster) : raster :=
  mkRaster (height r) (width r) (swap_rb <$> pixels r).

(** The single-channel array [cv2.COLOR_RGB2GRAY] computes. *)
Definition to_gray (r : raster) : gray_raster :=
  mkGray (height r) (width r) (gray_of_rgb <$> pixels r).

(** [Image.open(photo)]: a new image object. *)
Definition Image_open (photo : upload) : M loc :=
  r ← lift (image_open photo);
  alloc (PilImage r).

(** [np.array(x)]: a new array holding a copy of the data. *)
Definition np_array (x : loc) : M loc :=
  o ← load x;
  match o with
  | PilImage r => alloc (NdArray r)
  | NdArray r => alloc (NdArray r)
  | NdGray g => alloc (NdGray g)
  end.

(** [cv2.cvtColor(src, code)] on a three-channel array: a new array; an
    empty source fails OpenCV's assertion. *)
Definition cvtColor (src : loc) (code : color_code) : M loc :=
  o ← load src;
  match o with
  | NdArray r =>
      if is_empty r then raise (cv2_error "!_src.empty()")
      else match code with
           | COLOR_RGB2GRAY =>
               alloc (NdGray (to_gray r))
           | COLOR_RGB2BGR | COLOR_BGR2RGB =>
               alloc (NdArray (swap_channels r))
           end
  | _ => raise (cv2_error "Invalid number of channels in input image")
  end.

Definition FACE_CASCADE_detectMultiScale
    (image : loc) (scaleFactor : PyNum.float) (minNeighbors : Z)
    : M (list rect) :=
  o ← load image;
  match o with
  | NdGray g => lift (detectMultiScale g scaleFactor minNeighbors)
  | _ => raise TypeError
  end.

(** [img.shape] of a three-channel array, unpacked as [h, w, _]. *)
Definition shape_hw (img : loc) : M (Z * Z) :=
  o ← load img;
  match o with
  | NdArray r => mret (height r, width r)
  | _ => raise ValueError
  end.

(** The pixels after a [cv2.ellipse] call: covered ones take the colour. *)
Definition paint (c : ellipse_call) (r : raster) : raster :=
  mkRaster (height r) (width r)
    (imap (λ i p,
             if ellipse_covers (height r) (width r) c
                  (Z.of_nat i / width r) (Z.of_nat i mod width r)
             then e_color c else p)
          (pixels r)).

(** [cv2.ellipse(img, center, axes, angle, startAngle, endAngle, color,
    thickness)]: draws into [img] itself. *)
Definition cv2_ellipse (c : ellipse_call) : M unit :=
  o ← load (e_target c);
  match o with
  | NdArray r =>
      if (fst (e_axes c) <? 0) || (snd (e_axes c) <? 0)
      then raise (cv2_error "axes.width >= 0 && axes.height >= 0")
      else store (e_target c) (NdArray (paint c r));;
           log_drawn c
  | _ => raise TypeError
  end.

(** [Image.fromarray(arr)]: a new image object. *)
Definition Image_fromarray (arr : loc) : M loc :=
  o ← load arr;
  match o with
  | NdArray r => alloc (PilImage r)
  | _ => raise TypeError
  end.

Definition validate_single_face (image_pil : loc) : M bool :=
  arr ← np_array image_pil;
  gray ← cvtColor arr COLOR_RGB2GRAY;
  faces ← FACE_CASCADE_detectMultiScale gray PyNum.lit_1_2 5;
  mret (Nat.eqb (length faces) 1).

Definition overlay_face_outline (image_pil : loc) : M loc :=
  arr ← np_array image_pil;
  img ← cvtColor arr COLOR_RGB2BGR;
  '(h, w) ← shape_hw img;
  let center := (PyNum.floordiv w 2, PyNum.floordiv h 2) in
  a ← lift (PyNum.int_of_scaled w PyNum.lit_0_25);
  b ← lift (PyNum.int_of_scaled h PyNum.lit_0_35);
  cv2_ellipse (mkEllipse img center (a, b) 0 0 360 (0, 255, 0) 2);;
  rgb ← cvtColor img COLOR_BGR2RGB;
  Image_fromarray rgb.

(** [img.save(img_bytes, format="JPEG")] followed by [getvalue()]. *)
Definition save_jpeg (img : loc) : M bytes :=
  o ← load img;
  match o with
  | PilImage r => lift (jpeg_encode r)
  | _ => raise (AttributeError "save")
  end.

(** The [for pose, img in images.items()] loop: [zipf] is the list of
    entries written so far. *)
Fixpoint write_images (images : dict loc) (zipf : archive) : M archive :=
  match images with
  | [] => mret zipf
  | (pose, img) :: rest =>
      img_bytes ← save_jpeg img;
      write_images rest (zipf ++ [(pose +:+ ".jpg", img_bytes)])
  end.

Definition build_zip (images : dict loc) (metadata : dict json) : M archive :=
  zipf ← write_images images [];
  mret (zipf ++ [("metadata.json",
                  list_byte_of_string (json_dumps metadata 2))]).

End Helpers.

(** ** The wizard script *)

Definition POSES : list (string * string) :=
  [ ("front", "Look straight at the camera");
    ("left", "Turn your head slightly LEFT");
    ("right", "Turn your head slightly RIGHT");
    ("up", "Tilt your head UP");
    ("down", "Tilt your head DOWN") ].

Definition pose_keys : list string := fst <$> POSES.

Definition len {A : Type} (l : list A) : Z := Z.of_nat (length l).

(** Truth value of a Python [str]: the empty string is false. *)
Definition truthy (s : string) : bool := negb (String.eqb s "").

Definition is_none {A : Type} (o : option A) : bool :=
  match o with
  | None => true
  | Some _ => false
  end.

(** The metadata record of the final page, key by key as the dict literal
    lists them. *)
Definition make_metadata (emp_id name : string) (images : dict loc)
    (utcnow : datetime) : dict json :=
  [ ("employee_id", JStr emp_id);
    ("name", JStr name);
    ("poses", JStrList (dict_keys images));
    ("timestamp", JStr (isoformat utcnow));
    ("source", JStr "streamlit-frontend-preview") ].

Section Wizard.
Context `{Ext : External}.

(** The widget values of one script run, and the clock. *)
Record widgets : Type := mkWidgets {
  w_name : string;
  w_emp_id : string;
  w_consent : bool;
  w_start : bool;
  w_photo : option upload;
  w_retake : bool;
  w_accept : bool;
  w_utcnow : datetime
}.

Definition init_state : M unit :=
  s ← get_session;
  when (is_none (ss_page s)) (modify_session (with_page "intro"));;
  s ← get_session;
  when (is_none (ss_step s)) (modify_session (with_step 0));;
  s ← get_session;
  when (is_none (ss_images s)) (modify_session (with_images [])).

Definition intro_page (inp : widgets) : M unit :=
  when (w_start inp)
    (if negb (truthy (w_name inp) && truthy (w_emp_id inp) && w_consent inp)
     then emit (UiError "Please complete all fields and provide consent.")
     else modify_session (with_name (w_name inp));;
          modify_session (with_emp_id (w_emp_id inp));;
          modify_session (with_page "capture");;
          st_rerun);;
  st_stop.

Definition accept_and_continue (pose_name : string) (img : loc) : M unit :=
  images ← get_attr "images" ss_images;
  modify_session (with_images (dict_set pose_name img images));;
  step ← get_attr "step" ss_step;
  modify_session (with_step (step + 1));;
  step ← get_attr "step" ss_step;
  when (len POSES <=? step) (modify_session (with_page "final"));;
  st_rerun.

Definition capture_page (inp : widgets) : M unit :=
  step ← get_attr "step" ss_step;
  st_progress step (len POSES);;
  '(pose_name, instruction) ← lift (py_index POSES step);
  emit (UiSubheader (step + 1) (upper pose_name));;
  emit (UiInfo instruction);;
  match w_photo inp with
  | Some photo =>
      img ← Image_open photo;
      ok ← validate_single_face img;
      when (negb ok)
        (emit (UiError "Exactly one face must be visible. Please retake.");;
         st_stop);;
      preview ← overlay_face_outline img;
      emit (UiImage preview "Check alignment");;
      when (w_retake inp) st_rerun;;
      when (w_accept inp) (accept_and_continue pose_name img)
  | None => mret tt
  end;;
  st_stop.

Definition final_page (inp : widgets) : M unit :=
  emit (UiSuccess "Enrollment complete!");;
  emp_id ← get_attr "emp_id" ss_emp_id;
  name ← get_attr "name" ss_name;
  images ← get_attr "images" ss_images;
  let metadata := make_metadata emp_id name images (w_utcnow inp) in
  images ← get_attr "images" ss_images;
  zip_buffer ← build_zip images metadata;
  emp_id ← get_attr "emp_id" ss_emp_id;
  name ← get_attr "name" ss_name;
  emit (UiDownload "📥 Download Captured Data (ZIP)" zip_buffer
          (emp_id +:+ "_" +:+ name +:+ ".zip") "application/zip");;
  emit (UiInfo "This is a frontend-only preview. Backend upload is disabled.").

Definition script (inp : widgets) : M unit :=
  init_state;;
  emit (UiTitle "Employee Face Enrollment");;
  page ← get_attr "page" ss_page;
  when (String.eqb page "intro") (intro_page inp);;
  page ← get_attr "page" ss_page;
  when (String.eqb page "capture") (capture_page inp);;
  page ← get_attr "page" ss_page;
  when (String.eqb page "final") (final_page inp).

(** One run of the script: the page is rendered from scratch, the session
    state and the object store are those the previous run left. *)
Definition run_script (inp : widgets) (w : world) : outcome unit * world :=
  script inp (mkWorld (session w) (heap w) [] []).

Definition empty_session : session_state := mkSession None None None None None.

Definition initial_world : world := mkWorld empty_session ∅ [] [].

(** The worlds a session can be in: the fresh one, and whatever a script
    run leaves, however that run ended. *)
Inductive reachable : world → Prop :=
| reachable_initial : reachable initial_world
| reachable_run (inp : widgets) (w : world) :
    reachable w → reachable (snd (run_script inp w)).

End Wizard.

(** ** Vocabulary of the properties *)

Definition outcome_of {A : Type} (r : result A) : outcome A :=
  match r with
  | Ok a => Ret a
  | Err e => Raise e
  end.

Definition is_signal {A : Type} (o : outcome A) : bool :=
  match o with
  | StopScript | RerunScript => true
  | _ => false
  end.

(** A fragment is [benign] when it ends with a value or an exception,
    leaves the session state and the page alone, and never touches an
    existing image object. *)
Definition benign {A : Type} (m : M A) : Prop :=
  ∀ w, is_signal (m w).1 = false ∧
       session (m w).2 = session w ∧ ui (m w).2 = ui w ∧
       ∀ l r, heap w !! l = Some (PilImage r) →
              heap (m w).2 !! l = Some (PilImage r).

(** The geometry of an ellipse call: everything but the target array and
    the colour. *)
Definition geometry (c : ellipse_call) : Z * Z * (Z * Z) * Z * Z * Z * Z :=
  (e_center c, e_axes c, e_angle c, e_start c, e_end c, e_thickness c).

(** The two semi-axes the overlay computes for a dimension [n]: a quarter of
    it, and 35% of it up to one unit of rounding, never negative. *)
Definition axes_in_range (n : Z) : bool :=
  match PyNum.int_of_scaled n PyNum.lit_0_25,
        PyNum.int_of_scaled n PyNum.lit_0_35 with
  | Ok a, Ok b =>
      (a =? n / 4) && (0 <=? b) &&
      (35 * n / 100 - 1 <=? b) && (b <=? 35 * n / 100)
  | _, _ => false
  end.

(** [P] holds of the [n] integers from [z] on. *)
Fixpoint all_from (P : Z → bool) (n : nat) (z : Z) : bool :=
  match n with
  | O => true
  | S n' => P z && all_from P n' (z + 1)
  end.

(** The largest width or height a JPEG frame can have. *)
Definition max_dimension : Z := 65535.

(** The last character of a string, [d] when it is empty. *)
Fixpoint last_ascii (s : string) (d : ascii) : ascii :=
  match s with
  | EmptyString => d
  | String c s' => last_ascii s' c
  end.

(** The decimal digits. *)
Definition is_digit (c : ascii) : bool :=
  (48 <=? Z.of_nat (nat_of_ascii c)) && (Z.of_nat (nat_of_ascii c) <=? 57).

(** A fragment [ends] the run when it never hands a value on. *)
Definition ends {A : Type} (m : M A) : Prop :=
  ∀ w u, (m w).1 ≠ Ret u.

(** The attributes the top of the script sets when they are absent. *)
Definition initialise (s : session_state) : session_state :=
  let s1 := if is_none (ss_page s) then with_page "intro" s else s in
  let s2 := if is_none (ss_step s1) then with_step 0 s1 else s1 in
  if is_none (ss_images s2) then with_images [] s2 else s2.

(** The world in which the page of a run starts to render. *)
Definition start_world (w : world) : world :=
  add_ui (UiTitle "Employee Face Enrollment")
    (mkWorld (initialise (session w)) (heap w) [] []).

(** The session after the start handler stored the identity. *)
Definition started (name emp_id : string) (s : session_state) : session_state :=
  with_page "capture" (with_emp_id emp_id (with_name name s)).

(** The session after the accept handler ran for [pose] and [img]. *)
Definition accepted (pose : string) (img : loc) (step : Z) (images : dict loc)
    (s : session_state) : session_state :=
  let s1 := with_step (step + 1) (with_images (dict_set pose img images) s) in
  if len POSES <=? step + 1 then with_page "final" s1 else s1.

(** The invariant of the capture session: the step counter counts the
    accepted images, whose keys are the first poses in order. *)
Definition prefix_state (step : Z) (images : dict loc) : Prop :=
  step = len images ∧ dict_keys images = take (Z.to_nat step) pose_keys.

Definition page_ok (s : session_state) (page : string) (step : Z) : Prop :=
  (page = "intro" ∧ step = 0) ∨
  (page = "capture" ∧ 0 <= step < 5 ∧
     is_Some (ss_name s) ∧ is_Some (ss_emp_id s)) ∨
  (page = "final" ∧ step = 5 ∧
     is_Some (ss_name s) ∧ is_Some (ss_emp_id s)).

Definition session_ok (s : session_state) : Prop :=
  match ss_page s with
  | None => s = mkSession None None None None None
  | Some page =>
      ∃ step images,
        ss_step s = Some step ∧ ss_images s = Some images ∧
        prefix_state step images ∧ page_ok s page step
  end.

Section SpecFunctions.
Context `{Ext : External}.

(** The value content of [cv2.cvtColor(np.array(img), COLOR_RGB2GRAY)]. *)
Definition grayscale (r : raster) : result gray_raster :=
  if is_empty r then Err (cv2_error "!_src.empty()") else Ok (to_gray r).

(** What [validate_single_face] computes from the pixels of an image. *)
Definition validation (r : raster) : result bool :=
  match grayscale r with
  | Ok g =>
      match detectMultiScale g PyNum.lit_1_2 5 with
      | Ok faces => Ok (Nat.eqb (length faces) 1)
      | Err e => Err e
      end
  | Err e => Err e
  end.

(** The claim that a run treats its candidate as a validation failure:
    the run stops with the retry message on the page. *)
Definition treated_as_validation_failure (inp : widgets) (w : world) : Prop :=
  (run_script inp w).1 = StopScript ∧
  UiError "Exactly one face must be visible. Please retake."
    ∈ ui (run_script inp w).2.

(** The claim that an ellipse call has its centre exactly at the middle of
    a [w] by [h] image and semi-axes of exactly 25% of [w] and 35% of [h]. *)
Definition exact_guide (w h : Z) (c : ellipse_call) : Prop :=
  2 * fst (e_center c) = w ∧ 2 * snd (e_center c) = h ∧
  100 * fst (e_axes c) = 25 * w ∧ 100 * snd (e_axes c) = 35 * h.

(** The guide ellipse drawn into array [target] of an image [r]. *)
Definition guide (target : loc) (r : raster) (a b : Z) : ellipse_call :=
  mkEllipse target (width r / 2, height r / 2) (a, b) 0 0 360 (0, 255, 0) 2.

(** An archive entry written for one item of the image mapping: named
    after the pose key, holding the JPEG encoding of the image. *)
Definition image_entry (w : world) (item : string * loc)
    (entry : string * bytes) : Prop :=
  entry.1 = item.1 +:+ ".jpg" ∧
  ∃ r, heap w !! item.2 = Some (PilImage r) ∧ jpeg_encode r = Ok entry.2.

(** The archive entry that holds the metadata record. *)
Definition metadata_entry (metadata : dict json) : string * bytes :=
  ("metadata.json", list_byte_of_string (json_dumps metadata 2)).

(** What the capture page shows before it looks at the photo. *)
Definition capture_header (step : Z) (pose instr : string) : list ui_event :=
  [ UiProgress step (len POSES); UiSubheader (step + 1) (upper pose);
    UiInfo instr ].

(** What a run of the capture page does to the session: nothing, unless
    it ends in the accept handler. *)
Definition capture_effect (inp : widgets) (w : world)
    (o : outcome unit) (w' : world) : Prop :=
  (session w' = session w ∧ (o = RerunScript → w_retake inp = true)) ∨
  (∃ step pose instr img images r,
      ss_step (session w) = Some step ∧
      ss_images (session w) = Some images ∧
      py_index POSES step = Ok (pose, instr) ∧
      w_retake inp = false ∧ w_accept inp = true ∧
      o = RerunScript ∧
      heap w !! img = None ∧
      heap w' !! img = Some (PilImage r) ∧
      session w' = accepted pose img step images (session w)).

End SpecFunctions.

(** ** A small instance of the external libraries, for concrete runs *)

Module Demo.

(** A toy detector: it fails on a negative intensity and otherwise
    reports one region per saturated pixel. *)
Definition toy_detect (g : gray_raster) (scale : PyNum.float) (n : Z)
    : result (list rect) :=
  if existsb (λ v, v <? 0) (g_data g)
  then Err (cv2_error "detectMultiScale")
  else Ok ((λ _, (0, 0, 1, 1)) <$> filter (λ v, v = 255) (g_data g)).

#[export] Instance toy : External := {|
  upload := raster;
  image_open := λ r, Ok r;
  gray_of_rgb := λ p, snd (fst p);
  detectMultiScale := toy_detect;
  ellipse_covers := λ h w c row col,
    (row =? snd (e_center c)) && (col =? fst (e_center c));
  jpeg_encode := λ r,
    if is_empty r then Err (OSError "encoder error") else Ok [Byte.xff; Byte.xd8];
  json_dumps := λ d n, String.concat "," (fst <$> d)
|}.

Definition face : pixel := (10, 255, 10).
Definition backdrop : pixel := (1, 2, 3).
Definition broken : pixel := (0, -1, 0).

(** 3 x 3 frames with one face, two faces, and one the detector rejects. *)
Definition one_face : raster :=
  mkRaster 3 3 [backdrop; backdrop; backdrop; backdrop; face; backdrop;
                backdrop; backdrop; backdrop].
Definition two_faces : raster :=
  mkRaster 3 3 [face; backdrop; backdrop; backdrop; face; backdrop;
                backdrop; backdrop; backdrop].
Definition unreadable : raster :=
  mkRaster 3 3 [broken; backdrop; backdrop; backdrop; face; backdrop;
                backdrop; backdrop; backdrop].
(** A frame 3 wide and 180 high. *)
Definition tall : raster := mkRaster 180 3 (replicate 540 backdrop).

Definition noon : datetime := mkDatetime 2024 1 1 12 0 0 0.

Definition start_ok : widgets :=
  mkWidgets "Al" "E1" true true None false false noon.
Definition start_no_consent : widgets :=
  mkWidgets "Al" "E1" false true None false false noon.
Definition accept (photo : raster) : widgets :=
  mkWidgets "Al" "E1" true false (Some photo) false true noon.
Definition retake (photo : raster) : widgets :=
  mkWidgets "Al" "E1" true false (Some photo) true false noon.
Definition idle : widgets :=
  mkWidgets "" "" false false None false false noon.

(** The world on first load, at capture step 0, and on the final page. *)
Definition at_intro : world := (run_script idle initial_world).2.
Definition at_capture0 : world := (run_script start_ok initial_world).2.
Definition after (n : nat) : world :=
  Nat.iter n (λ w, (run_script (accept one_face) w).2) at_capture0.
Definition at_final : world := after 5.

(** A store holding one image object. *)
Definition store_of (r : raster) : world :=
  mkWorld empty_session {[ 1%positive := PilImage r ]} [] [].

End Demo.

(** ** Vocabulary of the further properties *)

(** A fragment [keeps_images] when every image object of the store is still
    there, with the same pixels, when the fragment ends. *)
Definition keeps_images {A : Type} (m : M A) : Prop :=
  ∀ w l r, heap w !! l = Some (PilImage r) →
           heap (m w).2 !! l = Some (PilImage r).

(** The order in which the wizard visits its pages. *)
Definition page_rank (page : string) : Z :=
  if String.eqb page "intro" then 0
  else if String.eqb page "capture" then 1
  else 2.

(** Every accepted image is an image object of the store. *)
Definition images_stored (w : world) : Prop :=
  ∀ images pose img,
    ss_images (session w) = Some images → (pose, img) ∈ images →
    ∃ r, heap w !! img = Some (PilImage r).

(** The image object [item] refers to holds the frame [r]. *)
Definition holds_frame (w : world) (item : string * loc) (r : raster) : Prop :=
  heap w !! item.2 = Some (PilImage r).

Section FurtherVocabulary.
Context `{Ext : External}.

(** A frame the capture page lets through: one face, and a width and height
    a camera frame can have. *)
Definition valid_frame (r : raster) : Prop :=
  validation r = Ok true ∧
  0 < width r <= max_dimension ∧ 0 < height r <= max_dimension.

(** Widget values that submit the frame [r] and press "Accept & Continue". *)
Definition accepting (inp : widgets) (r : raster) : Prop :=
  ∃ photo, w_photo inp = Some photo ∧ image_open photo = Ok r ∧
           valid_frame r ∧ w_retake inp = false ∧ w_accept inp = true.

(** Widget values that press "Start Enrollment" with a complete form. *)
Definition starting (inp : widgets) : Prop :=
  w_start inp = true ∧ w_name inp ≠ "" ∧ w_emp_id inp ≠ "" ∧
  w_consent inp = true.

(** The world after a sequence of script runs. *)
Definition run_all (inps : list widgets) (w : world) : world :=
  fold_left (λ w inp, (run_script inp w).2) inps w.

End FurtherVocabulary.

(** ** More concrete data *)

Module DemoMore.

(** An image without pixels. *)
Definition blank : raster := mkRaster 0 0 [].

(** The toy libraries with a decoder that rejects an empty frame. *)
Definition strict : External := {|
  upload := raster;
  image_open := λ r,
    if is_empty r then Err UnidentifiedImageError else Ok r;
  gray_of_rgb := λ p, snd (fst p);
  detectMultiScale := Demo.toy_detect;
  ellipse_covers := λ h w c row col,
    (row =? snd (e_center c)) && (col =? fst (e_center c));
  jpeg_encode := λ r,
    if is_empty r then Err (OSError "encoder error") else Ok [Byte.xff; Byte.xd8];
  json_dumps := λ d n, String.concat "," (fst <$> d)
|}.

(** A capture state at step 0, written out. *)
Definition at_step0 : world :=
  mkWorld (mkSession (Some "capture") (Some 0) (Some []) (Some "Al") (Some "E1"))
          ∅ [] [].

Definition submit_blank : @widgets strict :=
  @mkWidgets strict "" "" false false (Some blank) false false Demo.noon.

End DemoMore.

(** ** The clock and the calendar *)

(** The value of a decimal digit character. *)
Definition digit_value (c : ascii) : Z := Z.of_nat (nat_of_ascii c) - 48.

(** Reads [n] decimal digits from the front of [s], most significant first. *)
Fixpoint read_digits (n : nat) (acc : Z) (s : string) : option (Z * string) :=
  match n with
  | O => Some (acc, s)
  | S n' =>
      match s with
      | String c s' =>
          if is_digit c then read_digits n' (10 * acc + digit_value c) s'
          else None
      | EmptyString => None
      end
  end.

(** Reads the character [c] from the front of [s]. *)
Definition read_char (c : ascii) (s : string) : option string :=
  match s with
  | String c' s' => if Ascii.eqb c c' then Some s' else None
  | EmptyString => None
  end.

Definition is_leap (y : Z) : bool :=
  (y mod 4 =? 0) && (negb (y mod 100 =? 0) || (y mod 400 =? 0)).

Definition days_in_month (y m : Z) : Z :=
  if m =? 2 then (if is_leap y then 29 else 28)
  else if (m =? 4) || (m =? 6) || (m =? 9) || (m =? 11) then 30
  else 31.

(** The fields a [datetime] object can have: the constructor of the class
    raises [ValueError] on any other. *)
Definition valid_datetime (t : datetime) : bool :=
  (1 <=? year t) && (year t <=? 9999) &&
  (1 <=? month t) && (month t <=? 12) &&
  (1 <=? day t) && (day t <=? days_in_month (year t) (month t)) &&
  (0 <=? hour t) && (hour t <? 24) &&
  (0 <=? minute t) && (minute t <? 60) &&
  (0 <=? second t) && (second t <? 60) &&
  (0 <=? microsecond t) && (microsecond t <? 1000000).

(** The seconds field, then nothing or a fraction of six digits. *)
Definition read_fraction (s : string) : option (Z * string) :=
  match s with
  | EmptyString => Some (0, "")
  | _ => s1 ← read_char "." s; read_digits 6 0 s1
  end.

(** [datetime.fromisoformat] on the two formats [isoformat] prints for a
    naive datetime: [None] stands for [ValueError], which a field out of
    range raises as well as a malformed text. *)
Definition fromisoformat (s : string) : option datetime :=
  '(y, s) ← read_digits 4 0 s;
  s ← read_char "-" s;
  '(m, s) ← read_digits 2 0 s;
  s ← read_char "-" s;
  '(d, s) ← read_digits 2 0 s;
  s ← read_char "T" s;
  '(h, s) ← read_digits 2 0 s;
  s ← read_char ":" s;
  '(mi, s) ← read_digits 2 0 s;
  s ← read_char ":" s;
  '(sec, s) ← read_digits 2 0 s;
  '(us, s) ← read_fraction s;
  let t := mkDatetime y m d h mi sec us in
  if String.eqb s "" && valid_datetime t then Some t else None.

(** Days from 1970-01-01 to the date [y]-[m]-[d] of the proleptic Gregorian
    calendar, and back. *)
Definition days_from_civil (y m d : Z) : Z :=
  let y' := if m <=? 2 then y - 1 else y in
  let era := y' / 400 in
  let yoe := y' - era * 400 in
  let doy := (153 * (if 2 <? m then m - 3 else m + 9) + 2) / 5 + d - 1 in
  let doe := yoe * 365 + yoe / 4 - yoe / 100 + doy in
  era * 146097 + doe - 719468.

Definition civil_from_days (z : Z) : Z * Z * Z :=
  let z := z + 719468 in
  let era := z / 146097 in
  let doe := z - era * 146097 in
  let yoe := (doe - doe / 1460 + doe / 36524 - doe / 146096) / 365 in
  let doy := doe - (365 * yoe + yoe / 4 - yoe / 100) in
  let mp := (5 * doy + 2) / 153 in
  let d := doy - (153 * mp + 2) / 5 + 1 in
  let m := if mp <? 10 then mp + 3 else mp - 9 in
  (if m <=? 2 then yoe + era * 400 + 1 else yoe + era * 400, m, d).

(** [datetime.utcnow()] is [datetime.utcfromtimestamp(time.time())]: the
    fields of the UTC calendar date and time of day at [secs] seconds and
    [us] microseconds after 1970-01-01T00:00:00 UTC.  No time zone offset
    enters, and the result carries none. *)
Definition utcfromtimestamp (secs us : Z) : datetime :=
  let '(y, m, d) := civil_from_days (secs / 86400) in
  let rem := secs mod 86400 in
  mkDatetime y m d (rem / 3600) (rem mod 3600 / 60) (rem mod 60) us.

(** [calendar.timegm]: the seconds after 1970-01-01T00:00:00 UTC at which a
    UTC clock shows the fields of [t]. *)
Definition timegm (t : datetime) : Z :=
  days_from_civil (year t) (month t) (day t) * 86400 +
  hour t * 3600 + minute t * 60 + second t.

(** The instants the calendar is checked for: from 1970-01-01 up to, and
    not including, 2149-06-07. *)
Definition max_timestamp : Z := 65536 * 86400.

(** On day [z] the calendar gives a date a [datetime] can hold, and the day
    number of that date is [z]. *)
Definition calendar_ok (z : Z) : bool :=
  let '(y, m, d) := civil_from_days z in
  (days_from_civil y m d =? z) &&
  (1 <=? y) && (y <=? 9999) && (1 <=? m) && (m <=? 12) &&
  (1 <=? d) && (d <=? days_in_month y m).

(** * Properties *)

(** ** Helpers leave the session alone *)

Create HintDb benign.

Lemma fresh_lookup (h : gmap loc pyobj) : h !! fresh (dom h) = None.
Proof. apply not_elem_of_dom, is_fresh. Qed.

Lemma benign_ret {A : Type} (a : A) : benign (mret a).
Proof. intros w. cbn. auto. Qed.

Lemma benign_raise {A : Type} (e : exn) : benign (@raise A e).
Proof. intros w. cbn. auto. Qed.

Lemma benign_lift {A : Type} (r : result A) : benign (lift r).
Proof. destruct r; [apply benign_ret | apply benign_raise]. Qed.

Lemma benign_bind {A B : Type} (m : M A) (f : A → M B) :
  benign m → (∀ a, benign (f a)) → benign (m ≫= f).
Proof.
  intros Hm Hf w. unfold mbind, M_bind.
  destruct (Hm w) as (Hg & Hs & Hu & Hh).
  destruct (m w) as [[a | e | | ] w1]; cbn in *; auto.
  destruct (Hf a w1) as (Hg' & Hs' & Hu' & Hh').
  repeat split; [assumption | congruence | congruence | auto].
Qed.

Lemma benign_load (l : loc) : benign (load l).
Proof. intros w. unfold load. destruct (heap w !! l); cbn; auto. Qed.

Lemma benign_alloc (o : pyobj) : benign (alloc o).
Proof.
  intros w. unfold alloc. cbn. repeat split; auto.
  intros l r Hl. rewrite lookup_insert_ne; auto.
  intros <-. rewrite fresh_lookup in Hl. discriminate.
Qed.

Lemma benign_log_drawn (c : ellipse_call) : benign (log_drawn c).
Proof. intros w. cbn. auto. Qed.

#[global] Hint Resolve benign_ret benign_raise benign_lift benign_load
  benign_alloc benign_log_drawn : benign.

Ltac benign_step :=
  match goal with
  | |- benign (_ ≫= _) => apply benign_bind; [ | intros ? ]
  | |- benign (match ?x with _ => _ end) => destruct x
  | |- benign (if ?b then _ else _) => destruct b
  | |- benign _ => solve [ auto with benign ]
  end.

Ltac benign_auto := repeat benign_step.

Section HelperFrames.
Context `{Ext : External}.

Lemma benign_Image_open photo : benign (Image_open photo).
Proof. unfold Image_open. benign_auto. Qed.

Lemma benign_np_array x : benign (np_array x).
Proof. unfold np_array. benign_auto. Qed.

Lemma benign_cvtColor src code : benign (cvtColor src code).
Proof. unfold cvtColor. benign_auto. Qed.

Lemma benign_detect image s n :
  benign (FACE_CASCADE_detectMultiScale image s n).
Proof. unfold FACE_CASCADE_detectMultiScale. benign_auto. Qed.

Lemma benign_shape_hw img : benign (shape_hw img).
Proof. unfold shape_hw. benign_auto. Qed.

Lemma benign_Image_fromarray arr : benign (Image_fromarray arr).
Proof. unfold Image_fromarray. benign_auto. Qed.

(** [cv2.ellipse] writes only into an array, never into an image object. *)
Lemma benign_cv2_ellipse c : benign (cv2_ellipse c).
Proof.
  intros w. unfold cv2_ellipse, mbind, M_bind, load.
  destruct (heap w !! e_target c) as [[r | r | g] | ] eqn:Ht; cbn; auto.
  destruct (_ || _); cbn; auto.
  repeat split; auto.
  intros l r' Hl. rewrite lookup_insert_ne; auto. congruence.
Qed.

#[local] Hint Resolve benign_Image_open benign_np_array benign_cvtColor
  benign_detect benign_shape_hw benign_Image_fromarray
  benign_cv2_ellipse : benign.

Lemma benign_validate img : benign (validate_single_face img).
Proof. unfold validate_single_face. benign_auto. Qed.

Lemma benign_overlay img : benign (overlay_face_outline img).
Proof. unfold overlay_face_outline. benign_auto. Qed.

Lemma benign_save_jpeg img : benign (save_jpeg img).
Proof. unfold save_jpeg. benign_auto. Qed.

Lemma benign_write_images images : ∀ zipf, benign (write_images images zipf).
Proof.
  induction images as [ | [pose img] rest IH]; intros zipf; cbn.
  - auto with benign.
  - apply benign_bind; [apply benign_save_jpeg | intros b; apply IH].
Qed.

Lemma benign_build_zip images metadata : benign (build_zip images metadata).
Proof.
  unfold build_zip. apply benign_bind; [apply benign_write_images | ].
  intros zipf. auto with benign.
Qed.

End HelperFrames.

(** ** The pages of the wizard *)

(** [st.progress] shows the bar when the step is in range, and raises
    otherwise. *)
Lemma st_progress_run num den w :
  0 <= num <= den →
  st_progress num den w = (Ret tt, add_ui (UiProgress num den) w).
Proof.
  intros H. unfold st_progress.
  destruct (Z.leb_spec 0 num); [ | lia].
  destruct (Z.leb_spec num den); [ | lia]. reflexivity.
Qed.

Lemma st_progress_cases num den w :
  st_progress num den w = (Ret tt, add_ui (UiProgress num den) w) ∨
  ∃ e, st_progress num den w = (Raise e, w).
Proof.
  unfold st_progress. destruct (_ && _); [now left | right].
  destruct (_ <=? _); eauto.
Qed.

(** Splits on what [st.progress] does in the goal. *)
Ltac progress_cases :=
  match goal with
  | |- context [st_progress ?n ?d ?W] =>
      let e := fresh "e" in
      let H := fresh "Hbar" in
      destruct (st_progress_cases n d W) as [H | [e H]]; rewrite H; cbn
  end.

(** Steps over [st.progress] with the step in range. *)
Ltac progress_runs :=
  match goal with
  | |- context [st_progress ?n ?d ?W] =>
      rewrite (st_progress_run n d W) by (unfold len in *; cbn in *; lia); cbn
  end.

Ltac unchanged :=
  left; split; [ cbn; congruence | first [ discriminate | auto ] ].

Section WizardLemmas.
Context `{Ext : External}.

Lemma Image_open_run photo w :
  Image_open photo w =
    match image_open photo with
    | Ok r => (Ret (fresh (dom (heap w))),
               set_heap (insert (fresh (dom (heap w))) (PilImage r)) w)
    | Err e => (Raise e, w)
    end.
Proof.
  unfold Image_open, mbind, M_bind, lift.
  destruct (image_open photo); reflexivity.
Qed.

Lemma accept_run pose img w step images :
  ss_step (session w) = Some step →
  ss_images (session w) = Some images →
  accept_and_continue pose img w =
    (RerunScript, set_session (accepted pose img step images) w).
Proof.
  intros Hstep Himg.
  unfold accept_and_continue, get_attr, get_session, modify_session,
    mbind, M_bind, accepted.
  cbn. rewrite Himg. cbn. rewrite Hstep. cbn.
  destruct (len POSES <=? step + 1); reflexivity.
Qed.

Lemma capture_page_effect inp w :
  capture_effect inp w (capture_page inp w).1 (capture_page inp w).2.
Proof.
  unfold capture_page, get_attr, get_session, mbind, M_bind. cbn.
  destruct (ss_step (session w)) as [step | ] eqn:Hstep; cbn; [ | unchanged ].
  progress_cases; [ | unchanged ].
  destruct (py_index POSES step) as [[pose instr] | e] eqn:Hidx; cbn;
    [ | unchanged ].
  destruct (w_photo inp) as [photo | ] eqn:Hphoto; cbn; [ | unchanged ].
  rewrite Image_open_run.
  destruct (image_open photo) as [r | e]; cbn; [ | unchanged ].
  set (img := fresh (dom (heap w))).
  match goal with |- context [validate_single_face img ?W] =>
    destruct (benign_validate img W) as (Hg1 & Hs1 & Hu1 & Hh1);
    destruct (validate_single_face img W) as [[ok | e | | ] w1]
  end; cbn in Hg1, Hs1, Hu1, Hh1 |- *; try discriminate Hg1;
    [ | unchanged ].
  destruct ok; cbn; [ | unchanged ].
  match goal with |- context [overlay_face_outline img ?W] =>
    destruct (benign_overlay img W) as (Hg2 & Hs2 & Hu2 & Hh2);
    destruct (overlay_face_outline img W) as [[preview | e | | ] w2]
  end; cbn in Hg2, Hs2, Hu2, Hh2 |- *; try discriminate Hg2;
    [ | unchanged ].
  destruct (w_retake inp) eqn:Hre; cbn; [ unchanged | ].
  destruct (w_accept inp) eqn:Hacc; cbn; [ | unchanged ].
  destruct (ss_images (session w)) as [images | ] eqn:Himg.
  - rewrite (accept_run pose img _ step images); cbn; try congruence.
    right. exists step, pose, instr, img, images, r.
    repeat split; auto.
    + apply fresh_lookup.
    + apply Hh2, Hh1. apply lookup_insert_eq.
    + cbn. rewrite Hs2, Hs1. reflexivity.
  - unfold accept_and_continue, get_attr, get_session, mbind, M_bind.
    cbn. rewrite Hs2, Hs1, Himg. cbn. unchanged.
Qed.

Lemma ends_bind {A B : Type} (m : M A) (f : A → M B) :
  (∀ a, ends (f a)) → ends (m ≫= f).
Proof.
  intros Hf w u. unfold mbind, M_bind.
  destruct (m w) as [[a | e | | ] w1]; cbn; try discriminate.
  apply Hf.
Qed.

Lemma ends_st_stop {A : Type} : ends (@st_stop A).
Proof. intros w u. discriminate. Qed.

(** The intro and capture pages always end the run. *)
Lemma intro_page_ends inp : ends (intro_page inp).
Proof. unfold intro_page. apply ends_bind. intros _. apply ends_st_stop. Qed.

Lemma capture_page_ends inp : ends (capture_page inp).
Proof.
  unfold capture_page.
  apply ends_bind; intros step. apply ends_bind; intros _.
  apply ends_bind; intros [pose instr].
  do 3 (apply ends_bind; intros _). apply ends_st_stop.
Qed.

Lemma init_state_run w : init_state w = (Ret tt, set_session initialise w).
Proof.
  unfold init_state, initialise, set_session, get_session, modify_session,
    mbind, M_bind.
  destruct w as [[pg st im nm em] h u d]; cbn.
  destruct pg, st, im; reflexivity.
Qed.

(** A script run renders exactly one page, chosen by the [page] attribute. *)
Lemma run_script_dispatch inp w :
  run_script inp w =
    match ss_page (initialise (session w)) with
    | Some page =>
        if String.eqb page "intro" then intro_page inp (start_world w)
        else if String.eqb page "capture" then capture_page inp (start_world w)
        else if String.eqb page "final" then final_page inp (start_world w)
        else (Ret tt, start_world w)
    | None => (Raise (AttributeError "page"), start_world w)
    end.
Proof.
  unfold run_script, script.
  unfold mbind at 1, M_bind at 1. rewrite init_state_run.
  unfold get_attr, get_session, emit, mbind, M_bind, start_world. cbn.
  destruct (ss_page (initialise (session w))) as [page | ] eqn:Hp; cbn;
    [ | reflexivity ].
  set (W := add_ui _ _).
  destruct (String.eqb_spec page "intro") as [-> | Hi]; cbn.
  { pose proof (intro_page_ends inp W) as He.
    destruct (intro_page inp W) as [[[] | e | | ] w1]; cbn in *;
      [ destruct (He tt); reflexivity | reflexivity .. ]. }
  replace (ss_page (initialise (session w))) with (Some page).
  cbn.
  destruct (String.eqb_spec page "capture") as [-> | Hc]; cbn.
  { pose proof (capture_page_ends inp W) as He.
    destruct (capture_page inp W) as [[[] | e | | ] w1]; cbn in *;
      [ destruct (He tt); reflexivity | reflexivity .. ]. }
  replace (ss_page (initialise (session w))) with (Some page).
  cbn. destruct (String.eqb page "final"); reflexivity.
Qed.

End WizardLemmas.

(** ** Dictionaries and the pose sequence *)

Lemma dict_set_fresh {V : Type} (k : string) (v : V) (d : dict V) :
  k ∉ dict_keys d → dict_set k v d = d ++ [(k, v)].
Proof.
  unfold dict_keys. induction d as [ | [k' v'] d IH]; cbn; intros Hk.
  - reflexivity.
  - destruct (String.eqb_spec k k') as [-> | Hne].
    + exfalso. apply Hk. left.
    + rewrite IH; [reflexivity | ]. intros Hin. apply Hk. now right.
Qed.

Lemma dict_set_keys_present {V : Type} (k : string) (v : V) (d : dict V) :
  k ∈ dict_keys d → dict_keys (dict_set k v d) = dict_keys d.
Proof.
  unfold dict_keys. induction d as [ | [k' v'] d IH]; cbn; intros Hk.
  - inversion Hk.
  - destruct (String.eqb_spec k k') as [-> | Hne]; cbn; [reflexivity | ].
    f_equal. apply IH. inversion Hk; subst; [congruence | assumption].
Qed.

Lemma pose_keys_NoDup : NoDup pose_keys.
Proof. apply (bool_decide_unpack (NoDup pose_keys)). vm_compute. exact I. Qed.

Lemma py_index_nonneg {A : Type} (l : list A) (i : Z) (x : A) :
  0 <= i → py_index l i = Ok x → l !! Z.to_nat i = Some x.
Proof.
  intros Hi. unfold py_index.
  destruct (Z.ltb_spec i 0); [lia | ].
  destruct (_ && _); [ | discriminate].
  destruct (l !! Z.to_nat i); [congruence | discriminate].
Qed.

Lemma py_index_in_range {A : Type} (l : list A) (i : Z) :
  0 <= i < len l → ∃ x, py_index l i = Ok x.
Proof.
  intros Hi. unfold py_index, len in *.
  destruct (Z.ltb_spec i 0); [lia | ].
  destruct (Z.leb_spec 0 i); [ | lia].
  destruct (Z.ltb_spec i (Z.of_nat (length l))); [ | lia]. cbn.
  destruct (l !! Z.to_nat i) eqn:Hl; [eauto | ].
  apply lookup_ge_None in Hl. lia.
Qed.

(** Accepting the pose the step counter points at keeps the invariant. *)
Lemma prefix_state_accept step images pose instr img :
  0 <= step → prefix_state step images →
  py_index POSES step = Ok (pose, instr) →
  dict_set pose img images = images ++ [(pose, img)] ∧
  prefix_state (step + 1) (dict_set pose img images).
Proof.
  intros Hstep [Hlen Hkeys] Hidx.
  apply py_index_nonneg in Hidx; [ | assumption].
  assert (Hpose : pose_keys !! Z.to_nat step = Some pose).
  { unfold pose_keys. rewrite list_lookup_fmap, Hidx. reflexivity. }
  assert (Hfresh : pose ∉ dict_keys images).
  { rewrite Hkeys. intros (j & Hj & Hlt)%elem_of_take.
    pose proof (NoDup_lookup _ _ _ _ pose_keys_NoDup Hj Hpose). lia. }
  rewrite (dict_set_fresh _ _ _ Hfresh). split; [reflexivity | ].
  split.
  - unfold len in *. rewrite length_app. cbn. lia.
  - unfold dict_keys in *. rewrite fmap_app, Hkeys. cbn.
    replace (Z.to_nat (step + 1)) with (S (Z.to_nat step)) by lia.
    symmetry. apply take_S_r, Hpose.
Qed.

Section Invariant.
Context `{Ext : External}.

Lemma intro_page_run inp w :
  intro_page inp w =
    if w_start inp
    then if truthy (w_name inp) && truthy (w_emp_id inp) && w_consent inp
         then (RerunScript,
               set_session (started (w_name inp) (w_emp_id inp)) w)
         else (StopScript,
               add_ui (UiError
                 "Please complete all fields and provide consent.") w)
    else (StopScript, w).
Proof.
  unfold intro_page, mbind, M_bind.
  destruct (w_start inp); cbn; [ | reflexivity].
  destruct (_ && _); reflexivity.
Qed.

Lemma final_page_run inp w emp_id name images :
  ss_emp_id (session w) = Some emp_id → ss_name (session w) = Some name →
  ss_images (session w) = Some images →
  final_page inp w =
    match build_zip images
            (make_metadata emp_id name images (w_utcnow inp))
            (add_ui (UiSuccess "Enrollment complete!") w) with
    | (Ret zip_buffer, w1) =>
        (Ret tt,
         add_ui (UiInfo
           "This is a frontend-only preview. Backend upload is disabled.")
           (add_ui (UiDownload "📥 Download Captured Data (ZIP)" zip_buffer
                      (emp_id +:+ "_" +:+ name +:+ ".zip")
                      "application/zip") w1))
    | (Raise e, w1) => (Raise e, w1)
    | (StopScript, w1) => (StopScript, w1)
    | (RerunScript, w1) => (RerunScript, w1)
    end.
Proof.
  intros He Hn Hi.
  unfold final_page, get_attr, get_session, emit, mbind, M_bind.
  cbn -[build_zip]. rewrite He. cbn -[build_zip].
  rewrite Hn. cbn -[build_zip]. rewrite Hi. cbn -[build_zip].
  rewrite Hi. cbn -[build_zip].
  match goal with |- context [build_zip ?i ?m ?W] =>
    destruct (benign_build_zip i m W) as (_ & Hs & _);
    destruct (build_zip i m W) as [[z | e | | ] w1]
  end; cbn -[build_zip] in *; try reflexivity.
  rewrite Hs, He. cbn. rewrite Hs, Hn. reflexivity.
Qed.

Lemma final_page_session inp w : session (final_page inp w).2 = session w.
Proof.
  destruct (ss_emp_id (session w)) as [emp_id | ] eqn:He.
  2: { unfold final_page, get_attr, get_session, emit, mbind, M_bind.
       cbn. rewrite He. reflexivity. }
  destruct (ss_name (session w)) as [name | ] eqn:Hn.
  2: { unfold final_page, get_attr, get_session, emit, mbind, M_bind.
       cbn. rewrite He. cbn. rewrite Hn. reflexivity. }
  destruct (ss_images (session w)) as [images | ] eqn:Hi.
  2: { unfold final_page, get_attr, get_session, emit, mbind, M_bind.
       cbn. rewrite He. cbn. rewrite Hn. cbn. rewrite Hi. reflexivity. }
  rewrite (final_page_run inp w emp_id name images) by assumption.
  match goal with |- context [build_zip ?i ?m ?W] =>
    destruct (benign_build_zip i m W) as (_ & Hs & _);
    destruct (build_zip i m W) as [[z | e | | ] w1]
  end; cbn in *; assumption.
Qed.

Lemma initialise_ready s page step images :
  ss_page s = Some page → ss_step s = Some step →
  ss_images s = Some images → initialise s = s.
Proof.
  destruct s as [pg st im nm em]; cbn. intros -> -> ->. reflexivity.
Qed.

Lemma session_ok_initialise s : session_ok s → session_ok (initialise s).
Proof.
  unfold session_ok. destruct (ss_page s) as [page | ] eqn:Hp.
  - intros (step & images & Hs & Hi & Hpre & Hpg).
    rewrite (initialise_ready s page step images), Hp by assumption.
    exists step, images. auto.
  - intros ->. cbn. exists 0, []. repeat split. left. auto.
Qed.

Lemma session_ok_started name emp_id s :
  session_ok s → ss_page s = Some "intro" →
  session_ok (started name emp_id s).
Proof.
  unfold session_ok. intros Hok Hp. rewrite Hp in Hok.
  destruct Hok as (step & images & Hs & Hi & Hpre & Hpg).
  destruct Hpg as [[_ ->] | [[Hc _] | [Hc _]]]; try discriminate.
  cbn. exists 0, images. repeat split; try apply Hpre; try assumption.
  right. left. repeat split; eauto; lia.
Qed.

Lemma session_ok_accepted s step images pose instr img :
  session_ok s → ss_page s = Some "capture" →
  ss_step s = Some step → ss_images s = Some images →
  py_index POSES step = Ok (pose, instr) →
  session_ok (accepted pose img step images s).
Proof.
  unfold session_ok. intros Hok Hp Hs Hi Hidx. rewrite Hp in Hok.
  destruct Hok as (step' & images' & Hs' & Hi' & Hpre & Hpg).
  assert (step' = step) as -> by congruence.
  assert (images' = images) as -> by congruence.
  destruct Hpg as [[Hc _] | [(_ & Hr & Hn & He) | [Hc _]]]; try discriminate.
  destruct (prefix_state_accept step images pose instr img) as [_ Hpre'];
    [lia | assumption | assumption | ].
  unfold accepted. change (len POSES) with 5.
  destruct (Z.leb_spec 5 (step + 1)); cbn.
  - exists (step + 1), (dict_set pose img images).
    repeat split; try apply Hpre'. right. right. repeat split; auto; lia.
  - rewrite Hp. exists (step + 1), (dict_set pose img images).
    repeat split; try apply Hpre'. right. left. repeat split; auto; lia.
Qed.

(** The invariant survives every script run. *)
Lemma session_ok_run inp w :
  session_ok (session w) → session_ok (session (run_script inp w).2).
Proof.
  intros Hok%session_ok_initialise.
  rewrite run_script_dispatch.
  assert (Hstart : session (start_world w) = initialise (session w))
    by reflexivity.
  set (s := initialise (session w)) in *.
  destruct (ss_page s) as [page | ] eqn:Hp; [ | exact Hok ].
  destruct (String.eqb_spec page "intro") as [-> | Hi].
  { rewrite intro_page_run.
    destruct (w_start inp); [ | exact Hok ].
    destruct (_ && _); [ | exact Hok ].
    apply (session_ok_started _ _ s); assumption. }
  destruct (String.eqb_spec page "capture") as [-> | Hc].
  { destruct (capture_page_effect inp (start_world w))
      as [[Hsame _] | (step & pose & instr & img & images & r & Hs & Him &
                       Hidx & _ & _ & _ & _ & _ & Hacc)].
    - rewrite Hsame, Hstart. assumption.
    - rewrite Hacc, Hstart. rewrite Hstart in Hs, Him.
      eapply session_ok_accepted; eassumption. }
  destruct (String.eqb page "final").
  - rewrite final_page_session, Hstart. assumption.
  - exact Hok.
Qed.

Lemma initialise_page s : is_Some (ss_page (initialise s)).
Proof. destruct s as [[pg | ] [st | ] [im | ] nm em]; cbn; eauto. Qed.

Lemma accepted_page pose img step images s :
  is_Some (ss_page s) → is_Some (ss_page (accepted pose img step images s)).
Proof. unfold accepted. destruct (_ <=? _); cbn; eauto. Qed.

(** After a run the session has a page. *)
Lemma run_page_set inp w : is_Some (ss_page (session (run_script inp w).2)).
Proof.
  rewrite run_script_dispatch.
  pose proof (initialise_page (session w)) as Hpg.
  assert (Hstart : session (start_world w) = initialise (session w))
    by reflexivity.
  set (s := initialise (session w)) in *.
  destruct (ss_page s) as [page | ] eqn:Hp; [ | destruct Hpg; discriminate ].
  destruct (String.eqb page "intro").
  { rewrite intro_page_run.
    destruct (w_start inp);
      [ | change (is_Some (ss_page s)); rewrite Hp; eauto ].
    destruct (_ && _);
      [cbn; eauto | change (is_Some (ss_page s)); rewrite Hp; eauto]. }
  destruct (String.eqb page "capture").
  { destruct (capture_page_effect inp (start_world w))
      as [[Hsame _] | (step & pose & instr & img & images & r & _ & _ &
                       _ & _ & _ & _ & _ & _ & Hacc)].
    - rewrite Hsame, Hstart, Hp. eauto.
    - rewrite Hacc. apply accepted_page. rewrite Hstart, Hp. eauto. }
  destruct (String.eqb page "final").
  - rewrite final_page_session, Hstart, Hp. eauto.
  - change (is_Some (ss_page s)). rewrite Hp. eauto.
Qed.

Lemma reachable_ok w : reachable w → session_ok (session w).
Proof.
  induction 1 as [ | inp w Hr IH].
  - reflexivity.
  - apply session_ok_run, IH.
Qed.

End Invariant.

(** ** The face-presence validator *)

Section Validator.
Context `{Ext : External}.

Lemma validate_run img r w :
  heap w !! img = Some (PilImage r) →
  (validate_single_face img w).1 =
    outcome_of (validation r).
Proof.
  intros Hin.
  unfold validate_single_face, np_array, cvtColor, validation,
    FACE_CASCADE_detectMultiScale, grayscale, mbind, M_bind, load, alloc.
  rewrite Hin. cbn. rewrite lookup_insert_eq.
  destruct (is_empty r); cbn; [reflexivity | ].
  rewrite lookup_insert_eq.
  destruct (detectMultiScale _ _ _); reflexivity.
Qed.

(** C2: [validate_single_face] returns true exactly when the detector,
    run with scale factor 1.2 and minimum neighbour count 5 on the
    grayscale conversion of the image, returns exactly one region; when it
    returns none, or two or more, the result is false. *)
Theorem C2_validate_single_face_iff_one_region img r w :
  heap w !! img = Some (PilImage r) →
  ((validate_single_face img w).1 = Ret true ↔
     ∃ g faces, grayscale r = Ok g ∧
                detectMultiScale g (PyNum.decimal 12 10) 5 = Ok faces ∧
                length faces = 1%nat) ∧
  (∀ g faces, grayscale r = Ok g →
              detectMultiScale g (PyNum.decimal 12 10) 5 = Ok faces →
              length faces ≠ 1%nat →
              (validate_single_face img w).1 = Ret false).
Proof.
  intros Hin. rewrite (validate_run img r w Hin). unfold validation.
  change (PyNum.decimal 12 10) with PyNum.lit_1_2.
  split.
  - split.
    + destruct (grayscale r) as [g | e]; cbn; [ | discriminate].
      destruct (detectMultiScale g _ _) as [faces | e] eqn:Hd; cbn;
        [ | discriminate].
      intros [= Hlen%Nat.eqb_eq]. exists g, faces. auto.
    + intros (g & faces & -> & Hd & Hlen). rewrite Hd, Hlen. reflexivity.
  - intros g faces -> Hd Hlen. rewrite Hd. cbn.
    apply Nat.eqb_neq in Hlen. rewrite Hlen. reflexivity.
Qed.

End Validator.


(** ** The capture page: rejected and unprocessable candidates *)

Section CaptureFlow.
Context `{Ext : External}.

Lemma run_script_capture inp w step images :
  ss_page (session w) = Some "capture" →
  ss_step (session w) = Some step → ss_images (session w) = Some images →
  run_script inp w = capture_page inp (start_world w) ∧
  session (start_world w) = session w.
Proof.
  intros Hp Hs Hi. rewrite run_script_dispatch. unfold start_world. cbn.
  rewrite (initialise_ready _ _ _ _ Hp Hs Hi), Hp. split; reflexivity.
Qed.

(** The capture page up to the validation of a decoded candidate. *)
Lemma capture_page_validation inp w step pose instr photo r :
  ss_step (session w) = Some step →
  0 <= step < len POSES →
  py_index POSES step = Ok (pose, instr) →
  w_photo inp = Some photo → image_open photo = Ok r →
  match validation r with
  | Ok true => True
  | Ok false =>
      ∃ w1, capture_page inp w = (StopScript, w1) ∧
            session w1 = session w ∧
            ui w1 = ui w ++ capture_header step pose instr ++
              [UiError "Exactly one face must be visible. Please retake."]
  | Err e =>
      ∃ w1, capture_page inp w = (Raise e, w1) ∧
            session w1 = session w ∧
            ui w1 = ui w ++ capture_header step pose instr
  end.
Proof.
  intros Hstep Hrange Hidx Hphoto Hopen.
  unfold capture_page, get_attr, get_session, mbind, M_bind. cbn.
  rewrite Hstep. cbn. progress_runs.
  rewrite Hidx. cbn. rewrite Hphoto, Image_open_run, Hopen.
  cbn.
  set (img := fresh (dom (heap w))).
  match goal with |- context [validate_single_face img ?W] =>
    pose proof (validate_run img r W (lookup_insert_eq _ _ _)) as Hv;
    destruct (benign_validate img W) as (_ & Hs1 & Hu1 & _);
    destruct (validate_single_face img W) as [o w1]
  end. cbn in Hv, Hs1, Hu1. subst o.
  destruct (validation r) as [[ | ] | e]; cbn; [exact I | | ].
  - eexists. split; [reflexivity | ]. cbn. split; [assumption | ].
    rewrite Hu1. unfold capture_header. rewrite <- !app_assoc. reflexivity.
  - eexists. split; [reflexivity | ]. split; [assumption | ].
    rewrite Hu1. unfold capture_header. rewrite <- !app_assoc. reflexivity.
Qed.

End CaptureFlow.

(** ** The wizard *)

Section WizardClaims.
Context `{Ext : External}.

(** C4: in a capture state, a retake and a candidate that
    [validate_single_face] rejects both leave the session as it was: the
    page, the step counter, the accepted images and the identity fields
    are unchanged, so the candidate is not stored; the rejected candidate
    is answered with the error message and the run stops. *)
Theorem C4_retake_and_rejection_keep_session inp w step images :
  ss_page (session w) = Some "capture" →
  ss_step (session w) = Some step →
  ss_images (session w) = Some images →
  0 <= step < len POSES →
  (w_retake inp = true → session (run_script inp w).2 = session w) ∧
  (∀ photo r,
      w_photo inp = Some photo → image_open photo = Ok r →
      (∀ w0 img, heap w0 !! img = Some (PilImage r) →
                 (validate_single_face img w0).1 = Ret false) →
      (run_script inp w).1 = StopScript ∧
      session (run_script inp w).2 = session w ∧
      last (ui (run_script inp w).2) =
        Some (UiError "Exactly one face must be visible. Please retake.")).
Proof.
  intros Hp Hs Hi Hrange.
  destruct (run_script_capture inp w step images Hp Hs Hi) as [-> Hstart].
  split.
  - intros Hre.
    destruct (capture_page_effect inp (start_world w))
      as [[Hsame _] | (? & ? & ? & ? & ? & ? & _ & _ & _ & Hno & _)].
    + congruence.
    + congruence.
  - intros photo r Hphoto Hopen Hval.
    destruct (py_index_in_range POSES step Hrange) as [[pose instr] Hidx].
    assert (Hv : validation r = Ok false).
    { pose (w0 := mkWorld (session w) {[ 1%positive := PilImage r ]} [] []).
      specialize (Hval w0 1%positive (lookup_singleton_eq _ _)).
      rewrite (validate_run 1%positive r w0 (lookup_singleton_eq _ _)) in Hval.
      destruct (validation r) as [[ | ] | e]; cbn in Hval;
        congruence. }
    pose proof (capture_page_validation inp (start_world w) step pose instr
                  photo r) as Hcap.
    rewrite Hstart, Hv in Hcap.
    destruct (Hcap Hs Hrange Hidx Hphoto Hopen) as (w1 & -> & Hs1 & Hu1).
    cbn [fst snd]. repeat split; [congruence | ].
    rewrite Hu1, !app_assoc. apply last_snoc.
Qed.

(** C5, as the code has it: when the detector cannot process the
    candidate, [validate_single_face] raises and nothing catches the
    exception: it ends the script run.  The page shows no validation
    message; the session state is left as it was. *)
Theorem C5_detector_failure_ends_the_run inp w step images photo r e :
  ss_page (session w) = Some "capture" →
  ss_step (session w) = Some step →
  ss_images (session w) = Some images →
  0 <= step < len POSES →
  w_photo inp = Some photo → image_open photo = Ok r →
  (∀ w0 img, heap w0 !! img = Some (PilImage r) →
             (validate_single_face img w0).1 = Raise e) →
  ∃ pose instr,
    py_index POSES step = Ok (pose, instr) ∧
    (run_script inp w).1 = Raise e ∧
    session (run_script inp w).2 = session w ∧
    ui (run_script inp w).2 =
      UiTitle "Employee Face Enrollment" :: capture_header step pose instr.
Proof.
  intros Hp Hs Hi Hrange Hphoto Hopen Hval.
  destruct (run_script_capture inp w step images Hp Hs Hi) as [-> Hstart].
  destruct (py_index_in_range POSES step Hrange) as [[pose instr] Hidx].
  exists pose, instr. split; [assumption | ].
  assert (Hv : validation r = Err e).
  { pose (w0 := mkWorld (session w) {[ 1%positive := PilImage r ]} [] []).
    specialize (Hval w0 1%positive (lookup_singleton_eq _ _)).
    rewrite (validate_run 1%positive r w0 (lookup_singleton_eq _ _)) in Hval.
    destruct (validation r) as [[ | ] | e']; cbn in Hval; congruence. }
  pose proof (capture_page_validation inp (start_world w) step pose instr
                photo r) as Hcap.
  rewrite Hstart, Hv in Hcap.
  destruct (Hcap Hs Hrange Hidx Hphoto Hopen) as (w1 & -> & Hs1 & Hu1).
  cbn [fst snd]. repeat split; [congruence | exact Hu1].
Qed.

(** How a run changes the session of a well-formed world: not at all
    (beyond the defaults set at the top of the script), by the start
    handler, or by the accept handler. *)
Lemma run_script_session_cases inp w :
  let s := initialise (session w) in
  let w' := (run_script inp w).2 in
  session w' = s ∨
  (ss_page s = Some "intro" ∧ w_start inp = true ∧
   truthy (w_name inp) && truthy (w_emp_id inp) && w_consent inp = true ∧
   session w' = started (w_name inp) (w_emp_id inp) s) ∨
  (ss_page s = Some "capture" ∧
   ∃ step pose instr img images r,
     ss_step s = Some step ∧ ss_images s = Some images ∧
     py_index POSES step = Ok (pose, instr) ∧
     w_retake inp = false ∧ w_accept inp = true ∧
     (run_script inp w).1 = RerunScript ∧
     heap w !! img = None ∧ heap w' !! img = Some (PilImage r) ∧
     session w' = accepted pose img step images s).
Proof.
  intros s w'. subst w'. rewrite run_script_dispatch. fold s.
  assert (Hstart : session (start_world w) = s) by reflexivity.
  destruct (ss_page s) as [page | ] eqn:Hp; [ | left; exact Hstart ].
  destruct (String.eqb_spec page "intro") as [-> | Hi].
  { rewrite intro_page_run.
    destruct (w_start inp); [ | left; exact Hstart ].
    destruct (_ && _) eqn:Hvalid; [ | left; exact Hstart ].
    right. left. repeat split. }
  destruct (String.eqb_spec page "capture") as [-> | Hc].
  { destruct (capture_page_effect inp (start_world w))
      as [[Hsame _] | (step & pose & instr & img & images & r & Hs & Him &
                       Hidx & Hre & Hacc & Ho & Hf & Hn & Hsess)].
    - left. congruence.
    - right. right. split; [reflexivity | ].
      exists step, pose, instr, img, images, r.
      rewrite Hstart in Hs, Him, Hsess. repeat split; assumption. }
  left. destruct (String.eqb page "final").
  - rewrite final_page_session. exact Hstart.
  - exact Hstart.
Qed.

Lemma reachable_live w page :
  reachable w → ss_page (session w) = Some page →
  ∃ step images,
    ss_step (session w) = Some step ∧ ss_images (session w) = Some images ∧
    prefix_state step images ∧ page_ok (session w) page step ∧
    initialise (session w) = session w.
Proof.
  intros Hr%reachable_ok Hp. unfold session_ok in Hr. rewrite Hp in Hr.
  destruct Hr as (step & images & Hs & Hi & Hpre & Hpg).
  exists step, images. repeat split; try apply Hpre; try assumption.
  eapply initialise_ready; eassumption.
Qed.

Lemma truthy_spec s : truthy s = true ↔ s ≠ "".
Proof.
  unfold truthy. destruct (String.eqb_spec s ""); cbn; split;
    congruence.
Qed.

(** C8: from the intro state, pressing the start button leads to
    capture(0) exactly when the name and the employee id are not empty and
    consent is given; otherwise the run reports the validation error and
    stops, and the session state is what it was: no identity is stored and
    the step counter and the accepted images are untouched. *)
Theorem C8_intro_guard inp w :
  reachable w → ss_page (session w) = Some "intro" →
  let valid :=
    w_name inp ≠ "" ∧ w_emp_id inp ≠ "" ∧ w_consent inp = true in
  let w' := (run_script inp w).2 in
  (ss_page (session w') = Some "capture" ↔ w_start inp = true ∧ valid) ∧
  (w_start inp = true → valid →
     session w' = started (w_name inp) (w_emp_id inp) (session w) ∧
     ss_step (session w') = Some 0 ∧ ss_images (session w') = Some []) ∧
  (w_start inp = true → ¬ valid →
     (run_script inp w).1 = StopScript ∧ session w' = session w ∧
     ui w' = [ UiTitle "Employee Face Enrollment";
               UiError "Please complete all fields and provide consent." ]).
Proof.
  intros Hr Hp valid w'. subst w'.
  destruct (reachable_live w _ Hr Hp)
    as (step & images & Hs & Hi & [Hlen Hkeys] & Hpg & Hinit).
  destruct Hpg as [[_ ->] | [[Hc _] | [Hc _]]]; try discriminate.
  assert (images = []) as ->.
  { destruct images; [reflexivity | ]. unfold len in Hlen. cbn in Hlen. lia. }
  rewrite run_script_dispatch, Hinit, Hp. cbn [String.eqb Ascii.eqb Bool.eqb].
  rewrite intro_page_run.
  assert (Hstart : session (start_world w) = session w).
  { unfold start_world. cbn. exact Hinit. }
  assert (Hv : truthy (w_name inp) && truthy (w_emp_id inp) && w_consent inp
               = true ↔ valid).
  { unfold valid. rewrite !andb_true_iff, !truthy_spec. tauto. }
  destruct (w_start inp).
  - destruct (_ && _) eqn:Hb; cbn [fst snd].
    + assert (valid) as Hvalid by (apply Hv; reflexivity).
      split; [ | split ].
      * cbn. tauto.
      * intros _ _. cbn. rewrite Hinit. cbn. auto.
      * intros _ Hn. contradiction.
    + assert (¬ valid) as Hn by (rewrite <- Hv; discriminate).
      split; [ | split ].
      * cbn [session add_ui]. rewrite Hstart, Hp. split; [discriminate | tauto].
      * intros _ Hvalid. contradiction.
      * intros _ _. cbn [session add_ui]. rewrite Hstart.
        repeat split.
  - cbn [fst snd]. rewrite Hstart, Hp.
    split; [ | split ]; try discriminate.
    split; [discriminate | intros [? _]; discriminate].
Qed.

(** C10: in every reachable state whose page is "capture" the step counter
    lies in [0, 5), so the lookup [POSES[step]] succeeds; the counter
    is 5 exactly in the states whose page is "final". *)
Theorem C10_capture_step_in_bounds w :
  reachable w →
  (ss_page (session w) = Some "capture" →
     ∃ step pose,
       ss_step (session w) = Some step ∧ 0 <= step < len POSES ∧
       py_index POSES step = Ok pose) ∧
  (∀ step, ss_step (session w) = Some step →
     (step = len POSES ↔ ss_page (session w) = Some "final")).
Proof.
  intros Hr. split.
  - intros Hp.
    destruct (reachable_live w _ Hr Hp)
      as (step & images & Hs & Hi & _ & Hpg & _).
    destruct Hpg as [[Hc _] | [(_ & Hrange & _) | [Hc _]]];
      try discriminate.
    destruct (py_index_in_range POSES step Hrange) as [pose Hidx].
    exists step, pose. auto.
  - intros step Hs.
    pose proof (reachable_ok w Hr) as Hok. unfold session_ok in Hok.
    destruct (ss_page (session w)) as [page | ] eqn:Hp;
      [ | rewrite Hok in Hs; discriminate ].
    destruct Hok as (step' & images & Hs' & _ & _ & Hpg).
    assert (step' = step) as -> by congruence.
    change (len POSES) with 5.
    destruct Hpg as [[-> ->] | [(-> & Hrange & _) | (-> & -> & _)]].
    + split; [lia | discriminate].
    + split; [lia | discriminate].
    + split; reflexivity.
Qed.

End WizardClaims.

(** ** The alignment overlay *)

Lemma all_from_spec (P : Z → bool) (n : nat) :
  ∀ z, all_from P n z = true →
       ∀ k, z <= k < z + Z.of_nat n → P k = true.
Proof.
  induction n as [ | n IH]; intros z Hall k Hk.
  - lia.
  - cbn [all_from] in Hall. apply andb_true_iff in Hall as [Hz Hrest].
    destruct (Z.eq_dec k z) as [-> | Hne]; [assumption | ].
    apply (IH (z + 1) Hrest). lia.
Qed.

(** Every dimension a frame can have, tried one by one. *)
Lemma axes_checked : all_from axes_in_range (Z.to_nat 65536) 0 = true.
Proof. vm_compute. reflexivity. Qed.

Lemma axes_of_dimension (n : Z) :
  0 <= n <= max_dimension →
  ∃ a b, PyNum.int_of_scaled n PyNum.lit_0_25 = Ok a ∧
         PyNum.int_of_scaled n PyNum.lit_0_35 = Ok b ∧
         a = n / 4 ∧ 0 <= b ∧ 35 * n / 100 - 1 <= b <= 35 * n / 100.
Proof.
  intros Hn. unfold max_dimension in Hn.
  pose proof (all_from_spec _ _ _ axes_checked n) as Hc.
  assert (Hin : axes_in_range n = true) by (apply Hc; lia).
  unfold axes_in_range in Hin.
  destruct (PyNum.int_of_scaled n PyNum.lit_0_25) as [a | ]; [ | discriminate].
  destruct (PyNum.int_of_scaled n PyNum.lit_0_35) as [b | ]; [ | discriminate].
  exists a, b. rewrite !andb_true_iff in Hin.
  destruct Hin as [[[Ha Hb0] Hlo] Hhi].
  repeat split; lia.
Qed.

Section Overlay.
Context `{Ext : External}.

(** One successful run of the overlay, allocation by allocation. *)
Lemma overlay_run img r w a b :
  heap w !! img = Some (PilImage r) → is_empty r = false →
  PyNum.int_of_scaled (width r) PyNum.lit_0_25 = Ok a →
  PyNum.int_of_scaled (height r) PyNum.lit_0_35 = Ok b →
  0 <= a → 0 <= b →
  let l1 := fresh (dom (heap w)) in
  let h1 := <[l1 := NdArray r]> (heap w) in
  let l2 := fresh (dom h1) in
  let c := guide l2 r a b in
  let painted := paint c (swap_channels r) in
  let h3 := <[l2 := NdArray painted]> (<[l2 := NdArray (swap_channels r)]> h1) in
  let l4 := fresh (dom h3) in
  let h4 := <[l4 := NdArray (swap_channels painted)]> h3 in
  let l5 := fresh (dom h4) in
  overlay_face_outline img w =
    (Ret l5,
     mkWorld (session w) (<[l5 := PilImage (swap_channels painted)]> h4)
             (ui w) (drawn w ++ [c])).
Proof.
  intros Hin Hne Ha Hb Ha0 Hb0. cbn zeta.
  unfold overlay_face_outline, np_array, cvtColor, shape_hw, cv2_ellipse,
    Image_fromarray, mbind, M_bind, load, alloc, store, log_drawn.
  rewrite Hin. cbn. rewrite lookup_insert_eq, Hne. cbn.
  rewrite lookup_insert_eq. cbn. unfold PyNum.floordiv.
  rewrite Ha. cbn. rewrite Hb. cbn. rewrite lookup_insert_eq.
  destruct (Z.ltb_spec a 0); [lia | ]. destruct (Z.ltb_spec b 0); [lia | ].
  cbn. rewrite lookup_insert_eq.
  replace (is_empty (paint _ (swap_channels r))) with false
    by (symmetry; exact Hne).
  cbn. rewrite lookup_insert_eq. reflexivity.
Qed.

Lemma is_empty_false r :
  0 < width r → 0 < height r → is_empty r = false.
Proof.
  intros Hw Hh. unfold is_empty.
  destruct (Z.eqb_spec (height r) 0); [lia | ].
  destruct (Z.eqb_spec (width r) 0); [lia | ]. reflexivity.
Qed.

Lemma insert_fresh_keeps (h : gmap loc pyobj) o l v :
  h !! l = Some v → <[fresh (dom h) := o]> h !! l = Some v.
Proof.
  intros Hl. rewrite lookup_insert_ne; [assumption | ].
  intros <-. rewrite fresh_lookup in Hl. discriminate.
Qed.

(** C6, as the code has it: for an image of width [w] and height [h], each
    between 1 and 65535, [overlay_face_outline] makes exactly one
    [cv2.ellipse] call, with centre [(w // 2, h // 2)], horizontal
    semi-axis [w // 4], a vertical semi-axis that is 35% of [h] rounded
    down or one less, angle 0, the arc from 0 to 360 degrees and
    thickness 2 (an outline); these values are functions of [w] and [h]
    alone. *)
Theorem C6_guide_geometry img r w :
  heap w !! img = Some (PilImage r) →
  0 < width r <= max_dimension → 0 < height r <= max_dimension →
  ∃ c b,
    drawn (overlay_face_outline img w).2 = drawn w ++ [c] ∧
    PyNum.int_of_scaled (height r) PyNum.lit_0_35 = Ok b ∧
    35 * height r / 100 - 1 <= b <= 35 * height r / 100 ∧
    geometry c =
      ((width r / 2, height r / 2), (width r / 4, b), 0, 0, 360, 2) ∧
    e_color c = (0, 255, 0).
Proof.
  intros Hin Hw Hh.
  destruct (axes_of_dimension (width r)) as (a & _ & Ha & _ & -> & _);
    [lia | ].
  destruct (axes_of_dimension (height r)) as (_ & b & _ & Hb & _ & Hb0 & Hbb);
    [lia | ].
  rewrite (overlay_run img r w (width r / 4) b Hin); try assumption.
  - eexists _, b. cbn. repeat split; try apply Hbb. assumption.
  - apply is_empty_false; lia.
  - apply Z.div_pos; lia.
Qed.

(** The overlay either raises or meets the conditions of [overlay_run]. *)
Lemma overlay_raises_or_runs img r w :
  heap w !! img = Some (PilImage r) →
  (∃ e, (overlay_face_outline img w).1 = Raise e) ∨
  (∃ a b, is_empty r = false ∧
          PyNum.int_of_scaled (width r) PyNum.lit_0_25 = Ok a ∧
          PyNum.int_of_scaled (height r) PyNum.lit_0_35 = Ok b ∧
          0 <= a ∧ 0 <= b).
Proof.
  intros Hin.
  assert (Hstart : ∀ A (k : loc → M A),
            (np_array img ≫= k) w =
            k (fresh (dom (heap w)))
              (set_heap (insert (fresh (dom (heap w))) (NdArray r)) w)).
  { intros A k. unfold np_array, mbind, M_bind, load, alloc.
    rewrite Hin. reflexivity. }
  unfold overlay_face_outline. rewrite Hstart.
  unfold cvtColor, shape_hw, cv2_ellipse, mbind, M_bind, load, alloc, store.
  cbn. rewrite lookup_insert_eq.
  destruct (is_empty r) eqn:Hne; cbn; [left; eauto | ].
  rewrite lookup_insert_eq. cbn.
  destruct (PyNum.int_of_scaled (width r) PyNum.lit_0_25) as [a | e] eqn:Ha;
    cbn; [ | left; eauto ].
  destruct (PyNum.int_of_scaled (height r) PyNum.lit_0_35) as [b | e] eqn:Hb;
    cbn; [ | left; eauto ].
  rewrite lookup_insert_eq.
  destruct (Z.ltb_spec a 0); cbn; [left; eauto | ].
  destruct (Z.ltb_spec b 0); cbn; [left; eauto | ].
  right. exists a, b. auto.
Qed.

(** C7: [overlay_face_outline] never changes its input image, whatever the
    outcome.  When it returns, the result is an image object that did not
    exist before the call (so it is not the input) and has the width and
    height of the input, and every object that existed before is as it was.
    It does return on every image whose width and height lie between 1 and
    65535. *)
Theorem C7_overlay_returns_a_new_image img r w :
  heap w !! img = Some (PilImage r) →
  heap (overlay_face_outline img w).2 !! img = Some (PilImage r) ∧
  (∀ out, (overlay_face_outline img w).1 = Ret out →
     out ≠ img ∧ heap w !! out = None ∧
     (∃ r', heap (overlay_face_outline img w).2 !! out = Some (PilImage r') ∧
            width r' = width r ∧ height r' = height r ∧
            length (pixels r') = length (pixels r)) ∧
     (∀ l o, heap w !! l = Some o →
             heap (overlay_face_outline img w).2 !! l = Some o)) ∧
  (0 < width r <= max_dimension → 0 < height r <= max_dimension →
   ∃ out, (overlay_face_outline img w).1 = Ret out).
Proof.
  intros Hin. split; [ | split ].
  - destruct (benign_overlay img w) as (_ & _ & _ & Hkeep). auto.
  - intros out Hret.
    destruct (overlay_raises_or_runs img r w Hin)
      as [[e He] | (a & b & Hne & Ha & Hb & Ha0 & Hb0)]; [congruence | ].
    rewrite (overlay_run img r w a b Hin Hne Ha Hb Ha0 Hb0) in Hret |- *.
    cbn [fst snd heap] in Hret |- *.
    set (l1 := fresh (dom (heap w))) in *.
    set (h1 := <[l1 := NdArray r]> (heap w)) in *.
    set (l2 := fresh (dom h1)) in *.
    set (c := guide l2 r a b) in *.
    set (painted := paint c (swap_channels r)) in *.
    set (h3 := <[l2 := NdArray painted]> (<[l2 := _]> h1)) in *.
    set (l4 := fresh (dom h3)) in *.
    set (h4 := <[l4 := _]> h3) in *.
    set (l5 := fresh (dom h4)) in *.
    injection Hret as <-.
    assert (Hkeep : ∀ l o, heap w !! l = Some o → h4 !! l = Some o).
    { intros l o Hl.
      apply insert_fresh_keeps.
      assert (Hl1 : h1 !! l = Some o) by (apply insert_fresh_keeps, Hl).
      unfold h3. rewrite insert_insert_eq. apply insert_fresh_keeps, Hl1. }
    assert (Hnew : heap w !! l5 = None).
    { destruct (heap w !! l5) as [o | ] eqn:Hl5; [ | reflexivity].
      apply Hkeep in Hl5. unfold l5 in Hl5. rewrite fresh_lookup in Hl5.
      discriminate. }
    split; [ | split; [ | split ] ].
    + intros Heq. rewrite Heq, Hin in Hnew. discriminate.
    + assumption.
    + exists (swap_channels painted). split; [apply lookup_insert_eq | ].
      cbn. rewrite !length_fmap, length_imap, length_fmap. auto.
    + intros l o Hl. apply insert_fresh_keeps, Hkeep, Hl.
  - intros Hw Hh.
    destruct (axes_of_dimension (width r)) as (a & _ & Ha & _ & -> & _);
      [lia | ].
    destruct (axes_of_dimension (height r)) as (_ & b & _ & Hb & _ & Hb0 & _);
      [lia | ].
    rewrite (overlay_run img r w (width r / 4) b Hin); try assumption;
      [ eauto | apply is_empty_false; lia | apply Z.div_pos; lia ].
Qed.

End Overlay.

(** ** The archive builder *)

Lemma string_length_app (s t : string) :
  String.length (s +:+ t) = (String.length s + String.length t)%nat.
Proof.
  induction s as [ | c s IH]; [reflexivity | ].
  change (S (String.length (s +:+ t)) =
          S (String.length s + String.length t)%nat).
  now rewrite IH.
Qed.

Lemma string_app_cancel_r (t : string) :
  ∀ p q, p +:+ t = q +:+ t → p = q.
Proof.
  induction p as [ | a p IH]; intros [ | c q] Heq.
  - reflexivity.
  - apply (f_equal String.length) in Heq.
    rewrite !string_length_app in Heq. cbn in Heq. lia.
  - apply (f_equal String.length) in Heq.
    rewrite !string_length_app in Heq. cbn in Heq. lia.
  - change (String a (p +:+ t) = String c (q +:+ t)) in Heq.
    injection Heq as -> Heq. f_equal. apply IH, Heq.
Qed.

Lemma last_ascii_app (p : string) :
  ∀ d c t, last_ascii (p +:+ String c t) d = last_ascii t c.
Proof.
  induction p as [ | a p IH]; intros d c t; [reflexivity | ].
  change (last_ascii (p +:+ String c t) a = last_ascii t c). apply IH.
Qed.

(** No image entry is called "metadata.json". *)
Lemma jpg_name_not_metadata (pose : string) : pose +:+ ".jpg" ≠ "metadata.json".
Proof.
  intros Heq. apply (f_equal (λ s, last_ascii s "x"%char)) in Heq.
  rewrite last_ascii_app in Heq. cbn in Heq. discriminate.
Qed.

Section Archive.
Context `{Ext : External}.

Lemma save_jpeg_run img r w :
  heap w !! img = Some (PilImage r) →
  save_jpeg img w = (outcome_of (jpeg_encode r), w).
Proof.
  intros Hin. unfold save_jpeg, mbind, M_bind, load. rewrite Hin.
  destruct (jpeg_encode r); reflexivity.
Qed.

(** The loop writes one entry per item, in the order of the mapping. *)
Lemma write_images_run images w :
  (∀ pose img, (pose, img) ∈ images →
     ∃ r b, heap w !! img = Some (PilImage r) ∧ jpeg_encode r = Ok b) →
  ∀ zipf, ∃ entries,
    write_images images zipf w = (Ret (zipf ++ entries), w) ∧
    Forall2 (image_entry w) images entries.
Proof.
  induction images as [ | [pose img] rest IH]; intros Hall zipf.
  - exists []. rewrite app_nil_r. split; [reflexivity | constructor].
  - destruct (Hall pose img) as (r & b & Hin & Henc); [left | ].
    destruct (IH (λ p i Hpi, Hall p i (list_elem_of_further _ _ _ Hpi))
                (zipf ++ [(pose +:+ ".jpg", b)])) as (entries & Hrun & Hent).
    exists ((pose +:+ ".jpg", b) :: entries). split.
    + cbn [write_images]. unfold mbind, M_bind.
      rewrite (save_jpeg_run img r w Hin), Henc. cbn [outcome_of].
      rewrite Hrun, <- app_assoc. reflexivity.
    + constructor; [ | assumption]. split; [reflexivity | ]. eauto.
Qed.

Lemma image_entry_names w images entries :
  Forall2 (image_entry w) images entries →
  fst <$> entries = (λ pose, pose +:+ ".jpg") <$> dict_keys images.
Proof.
  unfold dict_keys. induction 1 as [ | item entry images entries [Hn _] _ IH];
    cbn; [reflexivity | ]. rewrite Hn, IH. reflexivity.
Qed.

(** An archive only comes out of the loop when every image was encoded;
    the store is not touched. *)
Lemma write_images_inv images w :
  ∀ zipf zip w1,
    write_images images zipf w = (Ret zip, w1) →
    w1 = w ∧ ∃ entries,
      zip = zipf ++ entries ∧ Forall2 (image_entry w) images entries.
Proof.
  induction images as [ | [pose img] rest IH]; intros zipf zip w1 Hrun.
  - injection Hrun as <- <-. split; [reflexivity | ].
    exists []. rewrite app_nil_r. split; [reflexivity | constructor].
  - cbn [write_images] in Hrun. unfold mbind, M_bind in Hrun.
    unfold save_jpeg at 1, mbind, M_bind, load in Hrun.
    destruct (heap w !! img) as [[r | r | g] | ] eqn:Hin; try discriminate.
    destruct (jpeg_encode r) as [b | e] eqn:Henc; try discriminate.
    cbn in Hrun. apply IH in Hrun as (-> & entries & -> & Hent).
    split; [reflexivity | ].
    exists ((pose +:+ ".jpg", b) :: entries). rewrite <- app_assoc.
    split; [reflexivity | ].
    constructor; [ | assumption]. split; [reflexivity | eauto].
Qed.

(** C3: whenever [build_zip] returns an archive for a mapping (a dict, so
    with distinct keys) and a metadata record, the archive holds, in the
    iteration order of the mapping, one entry "{pose_key}.jpg" with the JPEG
    encoding of each image, followed by one entry "metadata.json" with
    [json.dumps(metadata, indent=2)], and no two entries share a name.  It
    does return an archive whenever the images are stored image objects
    that the JPEG encoder accepts. *)
Theorem C3_build_zip_entries images metadata w :
  NoDup (dict_keys images) →
  (∀ zip w1, build_zip images metadata w = (Ret zip, w1) →
     w1 = w ∧ ∃ entries,
       zip = entries ++ [metadata_entry metadata] ∧
       Forall2 (image_entry w) images entries ∧
       fst <$> zip =
         ((λ pose, pose +:+ ".jpg") <$> dict_keys images)
         ++ ["metadata.json"] ∧
       NoDup (fst <$> zip)) ∧
  ((∀ pose img, (pose, img) ∈ images →
      ∃ r b, heap w !! img = Some (PilImage r) ∧ jpeg_encode r = Ok b) →
   ∃ zip, build_zip images metadata w = (Ret zip, w)).
Proof.
  intros Hnd. split.
  - intros zip w1 Hrun. unfold build_zip, mbind, M_bind in Hrun.
    destruct (write_images images [] w) as [[zipf | e | | ] w2] eqn:Hw;
      try discriminate.
    injection Hrun as <- <-.
    apply write_images_inv in Hw as (-> & entries & -> & Hent).
    split; [reflexivity | ]. exists entries.
    change ([] ++ entries) with entries.
    change ("metadata.json", list_byte_of_string (json_dumps metadata 2))
      with (metadata_entry metadata).
    assert (Hnames : fst <$> (entries ++ [metadata_entry metadata]) =
              ((λ pose, pose +:+ ".jpg") <$> dict_keys images)
              ++ ["metadata.json"]).
    { rewrite fmap_app, (image_entry_names w images entries Hent).
      reflexivity. }
    repeat split; try assumption.
    cut (NoDup (((λ pose, pose +:+ ".jpg") <$> dict_keys images)
                ++ ["metadata.json"]));
      [ intros Hn; rewrite <- Hnames in Hn; exact Hn | ].
    apply NoDup_app. repeat split.
    + apply NoDup_fmap_2; [ | assumption].
      intros p q Hpq. eapply string_app_cancel_r, Hpq.
    + intros name (pose & -> & _)%list_elem_of_fmap Hin.
      apply list_elem_of_singleton in Hin.
      exact (jpg_name_not_metadata pose Hin).
    + apply NoDup_singleton.
  - intros Hall.
    destruct (write_images_run images w Hall []) as (entries & Hrun & _).
    eexists. unfold build_zip, mbind, M_bind. rewrite Hrun. reflexivity.
Qed.

(** When an image fails to encode, the exception leaves [build_zip] and no
    archive is returned. *)
Lemma write_images_failure images w :
  (∀ pose img, (pose, img) ∈ images →
     ∃ r, heap w !! img = Some (PilImage r)) →
  (∃ pose img r e, (pose, img) ∈ images ∧
     heap w !! img = Some (PilImage r) ∧ jpeg_encode r = Err e) →
  ∀ zipf, ∃ e, write_images images zipf w = (Raise e, w).
Proof.
  induction images as [ | [p i] rest IH]; intros Hall Hbad zipf.
  - destruct Hbad as (? & ? & ? & ? & Hin & _). inversion Hin.
  - destruct (Hall p i) as (r0 & Hin0); [left | ].
    cbn [write_images]. unfold mbind, M_bind.
    rewrite (save_jpeg_run i r0 w Hin0).
    destruct (jpeg_encode r0) as [b | e0] eqn:Henc; cbn [outcome_of];
      [ | eauto ].
    apply IH.
    + intros pose img Hpi. apply (Hall pose img). now right.
    + destruct Hbad as (pose & img & r & e & Hin & Hl & He).
      apply elem_of_cons in Hin as [[= -> ->] | Hin].
      * congruence.
      * exists pose, img, r, e. auto.
Qed.

Lemma build_zip_failure images metadata w :
  (∀ pose img, (pose, img) ∈ images →
     ∃ r, heap w !! img = Some (PilImage r)) →
  (∃ pose img r e, (pose, img) ∈ images ∧
     heap w !! img = Some (PilImage r) ∧ jpeg_encode r = Err e) →
  ∃ e, build_zip images metadata w = (Raise e, w).
Proof.
  intros Hall Hbad.
  destruct (write_images_failure images w Hall Hbad []) as [e He].
  exists e. unfold build_zip, mbind, M_bind. rewrite He. reflexivity.
Qed.

End Archive.

(** ** The metadata record *)

Lemma is_digit_digit_char (z : Z) : is_digit (digit_char z) = true.
Proof.
  unfold digit_char.
  assert (Hm : 0 <= z mod 10 < 10) by (apply Z.mod_pos_bound; lia).
  assert (Hc : z mod 10 = 0 ∨ z mod 10 = 1 ∨ z mod 10 = 2 ∨ z mod 10 = 3 ∨
               z mod 10 = 4 ∨ z mod 10 = 5 ∨ z mod 10 = 6 ∨ z mod 10 = 7 ∨
               z mod 10 = 8 ∨ z mod 10 = 9) by lia.
  repeat destruct Hc as [-> | Hc]; try rewrite Hc; reflexivity.
Qed.

Section Metadata.
Context `{Ext : External}.

Lemma run_script_final inp w step images :
  ss_page (session w) = Some "final" →
  ss_step (session w) = Some step → ss_images (session w) = Some images →
  run_script inp w = final_page inp (start_world w) ∧
  session (start_world w) = session w.
Proof.
  intros Hp Hs Hi. rewrite run_script_dispatch. unfold start_world. cbn.
  rewrite (initialise_ready _ _ _ _ Hp Hs Hi), Hp. split; reflexivity.
Qed.

End Metadata.

(** * Further properties *)

(** ** Image objects outlive every script run *)

Lemma keeps_ret {A : Type} (a : A) : keeps_images (mret a).
Proof. intros w l r Hl. exact Hl. Qed.

Lemma keeps_bind {A B : Type} (m : M A) (f : A → M B) :
  keeps_images m → (∀ a, keeps_images (f a)) → keeps_images (m ≫= f).
Proof.
  intros Hm Hf w l r Hl. unfold mbind, M_bind.
  specialize (Hm w l r Hl).
  destruct (m w) as [[a | e | | ] w1]; cbn in *; try assumption.
  apply Hf, Hm.
Qed.

Lemma keeps_benign {A : Type} (m : M A) : benign m → keeps_images m.
Proof. intros Hb w l r Hl. destruct (Hb w) as (_ & _ & _ & Hk). auto. Qed.

Lemma keeps_same_heap {A : Type} (m : M A) :
  (∀ w, heap (m w).2 = heap w) → keeps_images m.
Proof. intros Hh w l r Hl. rewrite Hh. exact Hl. Qed.

Lemma keeps_get_attr {A : Type} attr (proj : session_state → option A) :
  keeps_images (get_attr attr proj).
Proof.
  apply keeps_same_heap. intros w.
  unfold get_attr, get_session, mbind, M_bind. cbn.
  destruct (proj (session w)); reflexivity.
Qed.

Lemma keeps_emit e : keeps_images (emit e).
Proof. apply keeps_same_heap. reflexivity. Qed.

Lemma keeps_modify_session f : keeps_images (modify_session f).
Proof. apply keeps_same_heap. reflexivity. Qed.

Lemma keeps_st_stop {A : Type} : keeps_images (@st_stop A).
Proof. apply keeps_same_heap. reflexivity. Qed.

Lemma keeps_st_rerun {A : Type} : keeps_images (@st_rerun A).
Proof. apply keeps_same_heap. reflexivity. Qed.

Lemma keeps_lift {A : Type} (r : result A) : keeps_images (lift r).
Proof. apply keeps_benign, benign_lift. Qed.

Lemma keeps_when b m : keeps_images m → keeps_images (when b m).
Proof. intros Hm. destruct b; [exact Hm | apply keeps_ret]. Qed.

Lemma keeps_st_progress num den : keeps_images (st_progress num den).
Proof.
  intros w l r Hl.
  destruct (st_progress_cases num den w) as [-> | [e ->]]; exact Hl.
Qed.

Create HintDb keeps.

#[global] Hint Resolve keeps_ret keeps_get_attr keeps_emit keeps_modify_session
  keeps_st_stop keeps_st_rerun keeps_lift keeps_st_progress : keeps.

Ltac keeps_step :=
  match goal with
  | |- keeps_images (_ ≫= _) => apply keeps_bind; [ | intros ? ]
  | |- keeps_images (when _ _) => apply keeps_when
  | |- keeps_images (match ?x with _ => _ end) => destruct x
  | |- keeps_images (if ?b then _ else _) => destruct b
  | |- keeps_images _ => solve [ auto with keeps ]
  end.

Ltac keeps_auto := repeat keeps_step.

Section RunsKeepImages.
Context `{Ext : External}.

#[local] Hint Resolve keeps_benign benign_Image_open benign_validate
  benign_overlay benign_build_zip : keeps.

Lemma keeps_accept_and_continue pose img :
  keeps_images (accept_and_continue pose img).
Proof. unfold accept_and_continue. keeps_auto. Qed.

Lemma keeps_intro_page inp : keeps_images (intro_page inp).
Proof. unfold intro_page. keeps_auto. Qed.

Lemma keeps_capture_page inp : keeps_images (capture_page inp).
Proof.
  pose proof keeps_accept_and_continue.
  unfold capture_page. keeps_auto.
Qed.

Lemma keeps_final_page inp : keeps_images (final_page inp).
Proof. unfold final_page. keeps_auto. Qed.

(** A script run keeps every image object. *)
Lemma run_keeps_images inp w l r :
  heap w !! l = Some (PilImage r) →
  heap (run_script inp w).2 !! l = Some (PilImage r).
Proof.
  intros Hl. rewrite run_script_dispatch.
  assert (Hs : heap (start_world w) !! l = Some (PilImage r)) by exact Hl.
  destruct (ss_page (initialise (session w))) as [page | ]; [ | exact Hs ].
  destruct (String.eqb page "intro"); [apply keeps_intro_page, Hs | ].
  destruct (String.eqb page "capture"); [apply keeps_capture_page, Hs | ].
  destruct (String.eqb page "final"); [apply keeps_final_page, Hs | exact Hs ].
Qed.

(** X7: no script run changes or drops an image object: an accepted frame
    keeps its pixels through every later run, whatever the pages shown,
    whatever the widgets say and however the runs end. *)
Theorem run_script_keeps_images inps w l r :
  heap w !! l = Some (PilImage r) →
  heap (run_all inps w) !! l = Some (PilImage r).
Proof.
  revert w. induction inps as [ | inp inps IH]; intros w Hl; [exact Hl | ].
  change (run_all (inp :: inps) w) with (run_all inps (run_script inp w).2).
  apply IH, run_keeps_images, Hl.
Qed.

End RunsKeepImages.

(** ** What the preview shows *)

Lemma swap_rb_involutive p : swap_rb (swap_rb p) = p.
Proof. destruct p as [[c0 c1] c2]. reflexivity. Qed.

Section Preview.
Context `{Ext : External}.

(** Converting to BGR, painting in green and converting back paints the
    original in green. *)
Lemma repaint_pixels c r i (p : pixel) :
  e_color c = (0, 255, 0) → pixels r !! i = Some p →
  pixels (swap_channels (paint c (swap_channels r))) !! i =
    Some (if ellipse_covers (height r) (width r) c
               (Z.of_nat i / width r) (Z.of_nat i mod width r)
          then (0, 255, 0) else p).
Proof.
  intros Hc Hp. cbn.
  rewrite list_lookup_fmap, list_lookup_imap, list_lookup_fmap, Hp. cbn.
  destruct (ellipse_covers _ _ _ _ _).
  - rewrite Hc. reflexivity.
  - rewrite swap_rb_involutive. reflexivity.
Qed.

(** A successful run of the overlay, seen from outside. *)
Lemma overlay_result img r w a b :
  heap w !! img = Some (PilImage r) → is_empty r = false →
  PyNum.int_of_scaled (width r) PyNum.lit_0_25 = Ok a →
  PyNum.int_of_scaled (height r) PyNum.lit_0_35 = Ok b →
  0 <= a → 0 <= b →
  ∃ out target w',
    overlay_face_outline img w = (Ret out, w') ∧
    session w' = session w ∧ ui w' = ui w ∧
    drawn w' = drawn w ++ [guide target r a b] ∧
    heap w !! out = None ∧
    heap w' !! out =
      Some (PilImage (swap_channels
                        (paint (guide target r a b) (swap_channels r)))) ∧
    (∀ l o, heap w !! l = Some o → heap w' !! l = Some o).
Proof.
  intros Hin Hne Ha Hb Ha0 Hb0.
  pose proof (overlay_run img r w a b Hin Hne Ha Hb Ha0 Hb0) as Hrun.
  cbn zeta in Hrun.
  set (l1 := fresh (dom (heap w))) in *.
  set (h1 := <[l1 := NdArray r]> (heap w)) in *.
  set (l2 := fresh (dom h1)) in *.
  set (c := guide l2 r a b) in *.
  set (painted := paint c (swap_channels r)) in *.
  set (h3 := <[l2 := NdArray painted]> (<[l2 := _]> h1)) in *.
  set (l4 := fresh (dom h3)) in *.
  set (h4 := <[l4 := _]> h3) in *.
  set (l5 := fresh (dom h4)) in *.
  assert (Hkeep : ∀ l o, heap w !! l = Some o → h4 !! l = Some o).
  { intros l o Hl. apply insert_fresh_keeps.
    assert (Hl1 : h1 !! l = Some o) by (apply insert_fresh_keeps, Hl).
    unfold h3. rewrite insert_insert_eq. apply insert_fresh_keeps, Hl1. }
  eexists l5, l2, _. split; [exact Hrun | ]. cbn [session ui drawn heap].
  repeat split.
  - destruct (heap w !! l5) as [o | ] eqn:Hl5; [ | reflexivity].
    apply Hkeep in Hl5. unfold l5 in Hl5. rewrite fresh_lookup in Hl5.
    discriminate.
  - apply lookup_insert_eq.
  - intros l o Hl. apply insert_fresh_keeps, Hkeep, Hl.
Qed.

(** X9: whenever [overlay_face_outline] returns, the preview is the input
    with the pixels the one ellipse call covers set to green (0, 255, 0):
    every other pixel has the colour it has in the input, although the
    picture went through BGR and back. *)
Theorem overlay_preview_pixels img r w out :
  heap w !! img = Some (PilImage r) →
  (overlay_face_outline img w).1 = Ret out →
  ∃ c r',
    drawn (overlay_face_outline img w).2 = drawn w ++ [c] ∧
    heap (overlay_face_outline img w).2 !! out = Some (PilImage r') ∧
    ∀ i (p : pixel), pixels r !! i = Some p →
           pixels r' !! i =
             Some (if ellipse_covers (height r) (width r) c
                        (Z.of_nat i / width r) (Z.of_nat i mod width r)
                   then (0, 255, 0) else p).
Proof.
  intros Hin Hret.
  destruct (overlay_raises_or_runs img r w Hin)
    as [[e He] | (a & b & Hne & Ha & Hb & Ha0 & Hb0)]; [congruence | ].
  destruct (overlay_result img r w a b Hin Hne Ha Hb Ha0 Hb0)
    as (out' & target & w' & Hrun & _ & _ & Hd & _ & Hout & _).
  rewrite Hrun in Hret |- *. cbn [fst snd] in Hret |- *.
  injection Hret as ->.
  eexists _, _. split; [exact Hd | ]. split; [exact Hout | ].
  intros i p Hp. apply repaint_pixels; [reflexivity | exact Hp].
Qed.

End Preview.

(** ** The capture page, case by case *)

Section CaptureCases.
Context `{Ext : External}.

Lemma valid_frame_overlay r :
  valid_frame r →
  ∃ a b, is_empty r = false ∧
         PyNum.int_of_scaled (width r) PyNum.lit_0_25 = Ok a ∧
         PyNum.int_of_scaled (height r) PyNum.lit_0_35 = Ok b ∧
         0 <= a ∧ 0 <= b.
Proof.
  intros (_ & Hw & Hh).
  destruct (axes_of_dimension (width r)) as (a & _ & Ha & _ & Hq & _);
    [lia | ].
  destruct (axes_of_dimension (height r)) as (_ & b & _ & Hb & _ & Hb0 & _);
    [lia | ].
  exists a, b. repeat split; try assumption.
  - apply is_empty_false; lia.
  - subst a. apply Z.div_pos; lia.
Qed.

(** The capture page on a valid frame with "Accept & Continue" pressed. *)
Lemma capture_page_accept inp w step images pose instr r :
  ss_step (session w) = Some step →
  ss_images (session w) = Some images →
  0 <= step < len POSES →
  py_index POSES step = Ok (pose, instr) →
  accepting inp r →
  ∃ img preview w',
    capture_page inp w = (RerunScript, w') ∧
    session w' = accepted pose img step images (session w) ∧
    heap w !! img = None ∧ heap w' !! img = Some (PilImage r) ∧
    preview ≠ img ∧
    ui w' = ui w ++ capture_header step pose instr
                 ++ [UiImage preview "Check alignment"].
Proof.
  intros Hstep Himg Hrange Hidx (photo & Hphoto & Hopen & Hvalid & Hre & Hacc).
  destruct (valid_frame_overlay r Hvalid)
    as (a & b & Hne & Ha & Hb & Ha0 & Hb0).
  destruct Hvalid as (Hv & _).
  unfold capture_page, get_attr, get_session, mbind, M_bind. cbn.
  rewrite Hstep. cbn. progress_runs. rewrite Hidx. cbn.
  rewrite Hphoto, Image_open_run, Hopen. cbn.
  set (img := fresh (dom (heap w))).
  match goal with |- context [validate_single_face img ?W] =>
    pose proof (validate_run img r W (lookup_insert_eq _ _ _)) as Hval;
    destruct (benign_validate img W) as (_ & Hs1 & Hu1 & Hh1);
    destruct (validate_single_face img W) as [o w1]
  end. cbn in Hval, Hs1, Hu1, Hh1. rewrite Hv in Hval. cbn in Hval. subst o.
  cbn.
  assert (Hin1 : heap w1 !! img = Some (PilImage r))
    by (apply Hh1, lookup_insert_eq).
  destruct (overlay_result img r w1 a b Hin1 Hne Ha Hb Ha0 Hb0)
    as (preview & target & w2 & Hrun & Hs2 & Hu2 & _ & Hnew & _ & Hkeep).
  rewrite Hrun. cbn. rewrite Hre. cbn. rewrite Hacc. cbn.
  rewrite (accept_run pose img _ step images) by (cbn; congruence).
  cbn. exists img, preview. eexists. split; [reflexivity | ].
  cbn. repeat split.
  - rewrite Hs2, Hs1. reflexivity.
  - apply fresh_lookup.
  - apply Hkeep, Hin1.
  - intros ->. rewrite Hin1 in Hnew. discriminate.
  - rewrite Hu2, Hu1. unfold capture_header. rewrite <- !app_assoc.
    reflexivity.
Qed.

(** The capture page never changes the session except by accepting a frame
    that was decoded and that [validate_single_face] let through. *)
Lemma capture_page_accept_only inp w :
  session (capture_page inp w).2 = session w ∨
  ∃ step pose instr images photo r img,
    ss_step (session w) = Some step ∧
    ss_images (session w) = Some images ∧
    py_index POSES step = Ok (pose, instr) ∧
    w_photo inp = Some photo ∧ image_open photo = Ok r ∧
    validation r = Ok true ∧
    w_retake inp = false ∧ w_accept inp = true ∧
    heap w !! img = None ∧
    heap (capture_page inp w).2 !! img = Some (PilImage r) ∧
    session (capture_page inp w).2 = accepted pose img step images (session w).
Proof.
  unfold capture_page, get_attr, get_session, mbind, M_bind. cbn.
  destruct (ss_step (session w)) as [step | ] eqn:Hstep; cbn; [ | now left ].
  progress_cases; [ | now left ].
  destruct (py_index POSES step) as [[pose instr] | e] eqn:Hidx; cbn;
    [ | now left ].
  destruct (w_photo inp) as [photo | ] eqn:Hphoto; cbn; [ | now left ].
  rewrite Image_open_run.
  destruct (image_open photo) as [r | e] eqn:Hopen; cbn; [ | now left ].
  set (img := fresh (dom (heap w))).
  match goal with |- context [validate_single_face img ?W] =>
    pose proof (validate_run img r W (lookup_insert_eq _ _ _)) as Hval;
    destruct (benign_validate img W) as (_ & Hs1 & Hu1 & Hh1);
    destruct (validate_single_face img W) as [o w1]
  end. cbn in Hval, Hs1, Hu1, Hh1. subst o.
  destruct (validation r) as [[ | ] | e] eqn:Hv; cbn; [ | now left | now left ].
  match goal with |- context [overlay_face_outline img ?W] =>
    destruct (benign_overlay img W) as (Hg2 & Hs2 & Hu2 & Hh2);
    destruct (overlay_face_outline img W) as [[preview | e | | ] w2]
  end; cbn in Hg2, Hs2, Hu2, Hh2 |- *; try discriminate Hg2;
    [ | left; congruence ].
  destruct (w_retake inp) eqn:Hre; cbn; [ left; congruence | ].
  destruct (w_accept inp) eqn:Hacc; cbn; [ | left; congruence ].
  destruct (ss_images (session w)) as [images | ] eqn:Himg.
  - rewrite (accept_run pose img _ step images); cbn; try congruence.
    right. exists step, pose, instr, images, photo, r, img.
    repeat split; auto.
    + apply fresh_lookup.
    + apply Hh2, Hh1. apply lookup_insert_eq.
    + rewrite Hs2, Hs1. reflexivity.
  - unfold accept_and_continue, get_attr, get_session, mbind, M_bind.
    cbn. rewrite Hs2, Hs1, Himg. cbn. left. congruence.
Qed.

End CaptureCases.

(** ** Script runs, one at a time *)

Lemma elem_of_dict_set {V : Type} (k : string) (v : V) (d : dict V) p l :
  (p, l) ∈ dict_set k v d → l = v ∨ (p, l) ∈ d.
Proof.
  induction d as [ | [k' v'] d IH]; cbn.
  - intros [= _ ->]%list_elem_of_singleton. now left.
  - destruct (String.eqb k k').
    + intros [[= _ ->] | Hin]%elem_of_cons; [now left | right; now right].
    + intros [[= -> ->] | Hin]%elem_of_cons; [right; left | ].
      destruct (IH Hin) as [-> | Hd]; [now left | right; now right].
Qed.

Lemma initialise_sets s :
  is_Some (ss_page (initialise s)) ∧ is_Some (ss_step (initialise s)) ∧
  is_Some (ss_images (initialise s)).
Proof. destruct s as [[pg | ] [st | ] [im | ] nm em]; cbn; eauto. Qed.

Lemma initialise_images s :
  ss_images (initialise s) =
    Some (match ss_images s with Some d => d | None => [] end).
Proof. destruct s as [[pg | ] [st | ] [im | ] nm em]; reflexivity. Qed.

Section Runs.
Context `{Ext : External}.

(** X15: after a script run, from whatever session state, the attributes
    [page], [step] and [images] are all set: the defaults at the top of the
    script fill in what is absent and no handler removes an attribute. *)
Theorem run_sets_page_step_images inp w :
  is_Some (ss_page (session (run_script inp w).2)) ∧
  is_Some (ss_step (session (run_script inp w).2)) ∧
  is_Some (ss_images (session (run_script inp w).2)).
Proof.
  destruct (initialise_sets (session w)) as (Hp & Hs & Hi).
  destruct (run_script_session_cases inp w)
    as [-> | [(_ & _ & _ & ->) | (_ & step & pose & instr & img & images &
                                  r & _ & _ & _ & _ & _ & _ & _ & _ & ->)]].
  - auto.
  - cbn. eauto.
  - unfold accepted. destruct (_ <=? _); cbn; eauto.
Qed.

(** The validator on an image object: the outcome is that of [validation],
    and the call only adds objects to the store. *)
Lemma validate_result img r w :
  heap w !! img = Some (PilImage r) →
  ∃ w', validate_single_face img w = (outcome_of (validation r), w') ∧
        session w' = session w ∧ ui w' = ui w ∧ drawn w' = drawn w ∧
        ∀ l o, heap w !! l = Some o → heap w' !! l = Some o.
Proof.
  intros Hin.
  unfold validate_single_face, np_array, cvtColor, validation,
    FACE_CASCADE_detectMultiScale, grayscale, mbind, M_bind, load, alloc.
  rewrite Hin. cbn. rewrite lookup_insert_eq.
  destruct (is_empty r); cbn.
  { eexists. split; [reflexivity | ]. cbn. repeat split.
    intros l o Hl. apply insert_fresh_keeps, Hl. }
  rewrite lookup_insert_eq.
  destruct (detectMultiScale _ _ _); cbn;
    (eexists; split; [reflexivity | ]; cbn; repeat split;
     intros l o Hl; apply insert_fresh_keeps, insert_fresh_keeps, Hl).
Qed.

(** X10: [validate_single_face] has no effect an observer of the session
    can see: the session state, the page, the drawing log and every object
    that existed before the call are as they were, whether the call
    returns or raises; it only allocates the arrays it works on. *)
Theorem validate_single_face_only_allocates img r w :
  heap w !! img = Some (PilImage r) →
  session (validate_single_face img w).2 = session w ∧
  ui (validate_single_face img w).2 = ui w ∧
  drawn (validate_single_face img w).2 = drawn w ∧
  (∀ l o, heap w !! l = Some o →
          heap (validate_single_face img w).2 !! l = Some o) ∧
  is_signal (validate_single_face img w).1 = false.
Proof.
  intros Hin.
  destruct (validate_result img r w Hin) as (w' & -> & Hs & Hu & Hd & Hk).
  cbn [fst snd]. repeat split; try assumption.
  destruct (validation r); reflexivity.
Qed.

(** X13: on the capture page without a photo the run shows the step and the
    instruction of the current pose and stops; the session and the store
    are untouched. *)
Theorem capture_without_photo inp w step images :
  ss_page (session w) = Some "capture" →
  ss_step (session w) = Some step →
  ss_images (session w) = Some images →
  0 <= step < len POSES →
  w_photo inp = None →
  ∃ pose instr,
    POSES !! Z.to_nat step = Some (pose, instr) ∧
    (run_script inp w).1 = StopScript ∧
    session (run_script inp w).2 = session w ∧
    heap (run_script inp w).2 = heap w ∧
    ui (run_script inp w).2 =
      UiTitle "Employee Face Enrollment" :: capture_header step pose instr.
Proof.
  intros Hp Hs Hi Hrange Hphoto.
  destruct (run_script_capture inp w step images Hp Hs Hi) as [-> Hstart].
  destruct (py_index_in_range POSES step Hrange) as [[pose instr] Hidx].
  exists pose, instr. split; [apply py_index_nonneg; [lia | exact Hidx] | ].
  assert (Hheap : heap (start_world w) = heap w) by reflexivity.
  assert (Hui : ui (start_world w) = [UiTitle "Employee Face Enrollment"])
    by reflexivity.
  rewrite <- Hstart in Hs. revert Hs Hstart Hheap Hui.
  generalize (start_world w). intros W Hs Hstart Hheap Hui.
  unfold capture_page, get_attr, get_session, mbind, M_bind. cbn.
  rewrite Hs. cbn. progress_runs. rewrite Hidx. cbn. rewrite Hphoto. cbn.
  rewrite Hui. repeat split; assumption.
Qed.

(** X14: a frame that [Image.open] cannot decode ends the run with the
    decoder's exception, before the validator is reached; the session and
    the store are untouched and nothing is reported on the page. *)
Theorem undecodable_frame_ends_the_run inp w step images photo e :
  ss_page (session w) = Some "capture" →
  ss_step (session w) = Some step →
  ss_images (session w) = Some images →
  0 <= step < len POSES →
  w_photo inp = Some photo → image_open photo = Err e →
  ∃ pose instr,
    POSES !! Z.to_nat step = Some (pose, instr) ∧
    (run_script inp w).1 = Raise e ∧
    session (run_script inp w).2 = session w ∧
    heap (run_script inp w).2 = heap w ∧
    ui (run_script inp w).2 =
      UiTitle "Employee Face Enrollment" :: capture_header step pose instr.
Proof.
  intros Hp Hs Hi Hrange Hphoto Hopen.
  destruct (run_script_capture inp w step images Hp Hs Hi) as [-> Hstart].
  destruct (py_index_in_range POSES step Hrange) as [[pose instr] Hidx].
  exists pose, instr. split; [apply py_index_nonneg; [lia | exact Hidx] | ].
  assert (Hheap : heap (start_world w) = heap w) by reflexivity.
  assert (Hui : ui (start_world w) = [UiTitle "Employee Face Enrollment"])
    by reflexivity.
  rewrite <- Hstart in Hs. revert Hs Hstart Hheap Hui.
  generalize (start_world w). intros W Hs Hstart Hheap Hui.
  unfold capture_page, get_attr, get_session, mbind, M_bind. cbn.
  rewrite Hs. cbn. progress_runs. rewrite Hidx. cbn.
  rewrite Hphoto, Image_open_run, Hopen. cbn.
  rewrite Hui. repeat split; assumption.
Qed.

(** One accepted frame. *)
Lemma accept_step inp w step images r :
  reachable w → ss_page (session w) = Some "capture" →
  ss_step (session w) = Some step → ss_images (session w) = Some images →
  accepting inp r →
  ∃ pose instr img,
    POSES !! Z.to_nat step = Some (pose, instr) ∧
    (run_script inp w).1 = RerunScript ∧
    heap w !! img = None ∧
    heap (run_script inp w).2 !! img = Some (PilImage r) ∧
    ss_step (session (run_script inp w).2) = Some (step + 1) ∧
    ss_images (session (run_script inp w).2) = Some (images ++ [(pose, img)]) ∧
    ss_page (session (run_script inp w).2)
      = Some (if step =? 4 then "final" else "capture") ∧
    ss_name (session (run_script inp w).2) = ss_name (session w) ∧
    ss_emp_id (session (run_script inp w).2) = ss_emp_id (session w).
Proof.
  intros Hr Hp Hs Hi Hacc.
  destruct (reachable_live w _ Hr Hp)
    as (step' & images' & Hs' & Hi' & Hpre & Hpg & _).
  assert (step' = step) as -> by congruence.
  assert (images' = images) as -> by congruence.
  destruct Hpg as [[Hc _] | [(_ & Hrange & _) | [Hc _]]]; try discriminate.
  destruct (run_script_capture inp w step images Hp Hs Hi) as [-> Hstart].
  destruct (py_index_in_range POSES step Hrange) as [[pose instr] Hidx].
  destruct (capture_page_accept inp (start_world w) step images pose instr r)
    as (img & preview & w' & -> & Hsess & Hnew & Hold & _ & _);
    try assumption; try (rewrite Hstart; assumption).
  destruct (prefix_state_accept step images pose instr img)
    as [Hset _]; [lia | assumption | assumption | ].
  exists pose, instr, img. cbn [fst snd]. rewrite Hsess, Hstart.
  split; [apply py_index_nonneg; [lia | exact Hidx] | ].
  split; [reflexivity | ]. split; [exact Hnew | ]. split; [exact Hold | ].
  unfold accepted. change (len POSES) with 5. rewrite Hset.
  destruct (Z.leb_spec 5 (step + 1)); destruct (Z.eqb_spec step 4);
    try lia; cbn; rewrite ?Hp; auto.
Qed.

(** X1: in a reachable capture state, submitting a frame that decodes, shows
    one face and has the size of a camera frame, and pressing "Accept &
    Continue", stores the decoded frame itself under the key of the current
    pose, as a new image object that is not the preview shown on the page;
    the step advances by one, the page becomes "final" exactly at the fifth
    pose, the identity is kept and the run ends in a rerun. *)
Theorem accept_advances inp w step images r :
  reachable w → ss_page (session w) = Some "capture" →
  ss_step (session w) = Some step → ss_images (session w) = Some images →
  accepting inp r →
  ∃ pose instr img preview,
    POSES !! Z.to_nat step = Some (pose, instr) ∧
    (run_script inp w).1 = RerunScript ∧
    heap w !! img = None ∧
    heap (run_script inp w).2 !! img = Some (PilImage r) ∧
    preview ≠ img ∧
    ui (run_script inp w).2 =
      UiTitle "Employee Face Enrollment" :: capture_header step pose instr
      ++ [UiImage preview "Check alignment"] ∧
    ss_step (session (run_script inp w).2) = Some (step + 1) ∧
    ss_images (session (run_script inp w).2) = Some (images ++ [(pose, img)]) ∧
    ss_page (session (run_script inp w).2)
      = Some (if step =? 4 then "final" else "capture") ∧
    ss_name (session (run_script inp w).2) = ss_name (session w) ∧
    ss_emp_id (session (run_script inp w).2) = ss_emp_id (session w).
Proof.
  intros Hr Hp Hs Hi Hacc.
  destruct (reachable_live w _ Hr Hp)
    as (step' & images' & Hs' & Hi' & Hpre & Hpg & _).
  assert (step' = step) as -> by congruence.
  assert (images' = images) as -> by congruence.
  destruct Hpg as [[Hc _] | [(_ & Hrange & _) | [Hc _]]]; try discriminate.
  destruct (run_script_capture inp w step images Hp Hs Hi) as [-> Hstart].
  destruct (py_index_in_range POSES step Hrange) as [[pose instr] Hidx].
  destruct (capture_page_accept inp (start_world w) step images pose instr r)
    as (img & preview & w' & -> & Hsess & Hnew & Hold & Hpv & Hui);
    try assumption; try (rewrite Hstart; assumption).
  destruct (prefix_state_accept step images pose instr img)
    as [Hset _]; [lia | assumption | assumption | ].
  exists pose, instr, img, preview. cbn [fst snd]. rewrite Hsess, Hstart.
  split; [apply py_index_nonneg; [lia | exact Hidx] | ].
  split; [reflexivity | ]. split; [exact Hnew | ]. split; [exact Hold | ].
  split; [exact Hpv | ]. split; [exact Hui | ].
  unfold accepted. change (len POSES) with 5. rewrite Hset.
  destruct (Z.leb_spec 5 (step + 1)); destruct (Z.eqb_spec step 4);
    try lia; cbn; rewrite ?Hp; auto.
Qed.

(** A run changes the session in one of three ways only. *)
Lemma run_script_changes inp w :
  let s := initialise (session w) in
  let w' := (run_script inp w).2 in
  session w' = s ∨
  (ss_page s = Some "intro" ∧
   session w' = started (w_name inp) (w_emp_id inp) s) ∨
  (ss_page s = Some "capture" ∧
   ∃ step pose instr images photo r img,
     ss_step s = Some step ∧ ss_images s = Some images ∧
     py_index POSES step = Ok (pose, instr) ∧
     w_photo inp = Some photo ∧ image_open photo = Ok r ∧
     validation r = Ok true ∧
     w_retake inp = false ∧ w_accept inp = true ∧
     heap w !! img = None ∧ heap w' !! img = Some (PilImage r) ∧
     session w' = accepted pose img step images s).
Proof.
  intros s w'. subst w'. rewrite run_script_dispatch. fold s.
  assert (Hstart : session (start_world w) = s) by reflexivity.
  destruct (ss_page s) as [page | ] eqn:Hp; [ | left; exact Hstart ].
  destruct (String.eqb_spec page "intro") as [-> | Hi].
  { rewrite intro_page_run.
    destruct (w_start inp); [ | left; exact Hstart ].
    destruct (_ && _); [ | left; exact Hstart ].
    right. left. split; reflexivity. }
  destruct (String.eqb_spec page "capture") as [-> | Hc].
  { destruct (capture_page_accept_only inp (start_world w))
      as [Hsame | (step & pose & instr & images & photo & r & img & H)].
    - left. congruence.
    - right. right. split; [reflexivity | ].
      exists step, pose, instr, images, photo, r, img.
      rewrite Hstart in H. exact H. }
  left. destruct (String.eqb page "final").
  - rewrite final_page_session. exact Hstart.
  - exact Hstart.
Qed.

(** X2: the accepted images change only by an accept: when a run from a
    reachable state leaves a different mapping, the run had a photo that
    was decoded, on which [validate_single_face] returns true, with
    "Accept & Continue" pressed and "Retake" not; the mapping gained one
    entry, for the current pose, and that entry is a new image object
    holding the decoded frame. *)
Theorem only_validated_frames_are_stored inp w images :
  reachable w → ss_images (session w) = Some images →
  ss_images (session (run_script inp w).2) ≠ Some images →
  ∃ step pose instr photo r img,
    ss_page (session w) = Some "capture" ∧
    ss_step (session w) = Some step ∧
    POSES !! Z.to_nat step = Some (pose, instr) ∧
    w_photo inp = Some photo ∧ image_open photo = Ok r ∧
    (∀ w0 l, heap w0 !! l = Some (PilImage r) →
             (validate_single_face l w0).1 = Ret true) ∧
    w_retake inp = false ∧ w_accept inp = true ∧
    heap w !! img = None ∧
    heap (run_script inp w).2 !! img = Some (PilImage r) ∧
    ss_images (session (run_script inp w).2) = Some (images ++ [(pose, img)]).
Proof.
  intros Hr Hi Hchanged.
  pose proof (reachable_ok w Hr) as Hok. unfold session_ok in Hok.
  destruct (ss_page (session w)) as [page | ] eqn:Hp;
    [ | rewrite Hok in Hi; discriminate ].
  destruct Hok as (step & images' & Hs & Hi' & Hpre & Hpg).
  assert (images' = images) as -> by congruence.
  pose proof (initialise_ready _ _ _ _ Hp Hs Hi) as Hinit.
  pose proof (run_script_changes inp w) as Hcases.
  cbn zeta in Hcases. rewrite Hinit in Hcases.
  destruct Hcases as [Hsame | [(_ & Hst) | (Hc & Hacc)]].
  - rewrite Hsame in Hchanged. contradiction.
  - rewrite Hst in Hchanged. cbn in Hchanged. contradiction.
  - destruct Hacc as (step' & pose & instr & images' & photo & r & img &
                      Hs2 & Hi2 & Hidx & Hphoto & Hopen & Hv & Hre & Hacc &
                      Hnew & Hold & Hsess).
    assert (step' = step) as -> by congruence.
    assert (images' = images) as -> by congruence.
    rewrite Hp in Hc. injection Hc as ->.
    destruct Hpg as [[Hc _] | [(_ & Hrange & _) | [Hc _]]]; try discriminate.
    destruct (prefix_state_accept step images pose instr img)
      as [Hset _]; [lia | assumption | assumption | ].
    exists step, pose, instr, photo, r, img.
    repeat split; try assumption.
    + apply py_index_nonneg; [lia | assumption].
    + intros w0 l Hl. rewrite (validate_run l r w0 Hl), Hv. reflexivity.
    + rewrite Hsess, <- Hset. unfold accepted.
      destruct (_ <=? _); reflexivity.
Qed.

(** X5: once the wizard has left the intro page, no run changes the stored
    name or employee id. *)
Theorem identity_is_kept inp w page :
  reachable w → ss_page (session w) = Some page → page ≠ "intro" →
  ss_name (session (run_script inp w).2) = ss_name (session w) ∧
  ss_emp_id (session (run_script inp w).2) = ss_emp_id (session w).
Proof.
  intros Hr Hp Hne.
  destruct (reachable_live w _ Hr Hp) as (step & images & _ & _ & _ & _ & Hinit).
  pose proof (run_script_changes inp w) as Hcases.
  cbn zeta in Hcases. rewrite Hinit in Hcases.
  destruct Hcases as [-> | [(Hc & _) | (_ & Hacc)]].
  - auto.
  - congruence.
  - destruct Hacc as (? & ? & ? & ? & ? & ? & ? & _ & _ & _ & _ & _ & _ & _ &
                      _ & _ & _ & ->).
    unfold accepted. destruct (_ <=? _); cbn; auto.
Qed.

(** X6: the wizard only moves forward: a run from a reachable state never
    takes the page back (intro, capture, final in this order), never lowers
    the step counter, and never removes, replaces or reorders an accepted
    image: the old mapping is a prefix of the new one. *)
Theorem wizard_only_moves_forward inp w page step images :
  reachable w → ss_page (session w) = Some page →
  ss_step (session w) = Some step → ss_images (session w) = Some images →
  ∃ page' step' images',
    ss_page (session (run_script inp w).2) = Some page' ∧
    ss_step (session (run_script inp w).2) = Some step' ∧
    ss_images (session (run_script inp w).2) = Some images' ∧
    page_rank page <= page_rank page' ∧ step <= step' ∧
    images `prefix_of` images'.
Proof.
  intros Hr Hp Hs Hi.
  destruct (reachable_live w _ Hr Hp)
    as (step0 & images0 & Hs0 & Hi0 & Hpre & Hpg & Hinit).
  assert (step0 = step) as -> by congruence.
  assert (images0 = images) as -> by congruence.
  pose proof (run_script_changes inp w) as Hcases.
  cbn zeta in Hcases. rewrite Hinit in Hcases.
  destruct Hcases as [-> | [(Hc & ->) | (Hc & Hacc)]].
  - exists page, step, images. repeat split; try assumption; try lia.
    reflexivity.
  - exists "capture", step, images. assert (page = "intro") as -> by congruence.
    repeat split; try assumption; try (cbn; lia). reflexivity.
  - destruct Hacc as (step' & pose & instr & images' & photo & r & img &
                      Hs2 & Hi2 & Hidx & _ & _ & _ & _ & _ & _ & _ & ->).
    assert (step' = step) as -> by congruence.
    assert (images' = images) as -> by congruence.
    assert (page = "capture") as -> by congruence.
    destruct Hpg as [[Hc' _] | [(_ & Hrange & _) | [Hc' _]]]; try discriminate.
    destruct (prefix_state_accept step images pose instr img)
      as [Hset _]; [lia | assumption | assumption | ].
    exists (if len POSES <=? step + 1 then "final" else "capture"),
           (step + 1), (images ++ [(pose, img)]).
    unfold accepted. rewrite Hset.
    destruct (len POSES <=? step + 1); cbn; rewrite ?Hp;
      repeat split; try lia; try (now apply prefix_app_r).
Qed.

(** Every accepted image of a reachable session is an image object. *)
Lemma reachable_images_stored w : reachable w → images_stored w.
Proof.
  induction 1 as [ | inp w Hr IH]; intros images' pose' img' Hi' Hin'.
  - discriminate.
  - assert (Hold : ∀ images, ss_images (initialise (session w)) = Some images →
                   (pose', img') ∈ images →
                   ∃ r, heap (run_script inp w).2 !! img' = Some (PilImage r)).
    { intros images Hi Hin. rewrite initialise_images in Hi.
      destruct (ss_images (session w)) as [d | ] eqn:Hd.
      - injection Hi as <-.
        destruct (IH d pose' img' Hd Hin) as [r Hl].
        exists r. apply run_keeps_images, Hl.
      - injection Hi as <-. inversion Hin. }
    pose proof (run_script_changes inp w) as Hcases. cbn zeta in Hcases.
    destruct Hcases as [Hsame | [(_ & Hst) | (_ & Hacc)]].
    + rewrite Hsame in Hi'. eauto.
    + rewrite Hst in Hi'. cbn in Hi'. eauto.
    + destruct Hacc as (step & pose & instr & images & photo & r & img &
                        _ & Hi & _ & _ & _ & _ & _ & _ & _ & Hnew & Hsess).
      rewrite Hsess in Hi'.
      assert (images' = dict_set pose img images) as ->.
      { unfold accepted in Hi'. destruct (_ <=? _); cbn in Hi'; congruence. }
      apply elem_of_dict_set in Hin' as [-> | Hin']; eauto.
Qed.

Lemma reachable_run_all inps : ∀ w, reachable w → reachable (run_all inps w).
Proof.
  induction inps as [ | inp inps IH]; intros w Hr; [exact Hr | ].
  apply (IH _ (reachable_run inp w Hr)).
Qed.

(** X4: the final page is terminal: from a reachable state on the final
    page, no sequence of runs, whatever the widgets say, changes the
    session: page, step, accepted images and identity stay as they are. *)
Theorem final_page_is_terminal inps w :
  reachable w → ss_page (session w) = Some "final" →
  session (run_all inps w) = session w.
Proof.
  revert w. induction inps as [ | inp inps IH]; intros w Hr Hp;
    [reflexivity | ].
  destruct (reachable_live w _ Hr Hp) as (step & images & Hs & Hi & _ & _ & _).
  destruct (run_script_final inp w step images Hp Hs Hi) as [Hrun Hstart].
  assert (Hsame : session (run_script inp w).2 = session w).
  { rewrite Hrun, final_page_session. exact Hstart. }
  change (run_all (inp :: inps) w) with (run_all inps (run_script inp w).2).
  rewrite IH; [exact Hsame | apply reachable_run, Hr | ].
  rewrite Hsame. exact Hp.
Qed.

(** X8: on the final page of a reachable session, when the JPEG encoder
    accepts the accepted frames, the run completes and offers one download:
    an archive with the entries front.jpg, left.jpg, right.jpg, up.jpg,
    down.jpg and metadata.json, in this order, each image entry holding the
    encoding of the frame accepted for its pose, under the file name
    "<employee id>_<name>.zip". *)
Theorem final_page_offers_the_archive inp w :
  reachable w → ss_page (session w) = Some "final" →
  (∀ images pose img r,
      ss_images (session w) = Some images → (pose, img) ∈ images →
      heap w !! img = Some (PilImage r) → ∃ b, jpeg_encode r = Ok b) →
  ∃ emp_id name images entries,
    ss_emp_id (session w) = Some emp_id ∧ ss_name (session w) = Some name ∧
    ss_images (session w) = Some images ∧
    (run_script inp w).1 = Ret tt ∧
    Forall2 (image_entry w) images entries ∧
    fst <$> entries =
      ["front.jpg"; "left.jpg"; "right.jpg"; "up.jpg"; "down.jpg"] ∧
    ui (run_script inp w).2 =
      [ UiTitle "Employee Face Enrollment";
        UiSuccess "Enrollment complete!";
        UiDownload "📥 Download Captured Data (ZIP)"
          (entries ++ [metadata_entry
                         (make_metadata emp_id name images (w_utcnow inp))])
          (emp_id +:+ "_" +:+ name +:+ ".zip") "application/zip";
        UiInfo "This is a frontend-only preview. Backend upload is disabled."
      ].
Proof.
  intros Hr Hp Henc.
  destruct (reachable_live w _ Hr Hp)
    as (step & images & Hs & Hi & [Hlen Hkeys] & Hpg & Hinit).
  destruct Hpg as [[Hc _] | [[Hc _] | (_ & -> & [name Hn] & [emp_id He])]];
    try discriminate.
  destruct (run_script_final inp w 5 images Hp Hs Hi) as [Hrun Hstart].
  rewrite Hrun.
  rewrite (final_page_run inp (start_world w) emp_id name images)
    by (rewrite Hstart; assumption).
  set (W := add_ui (UiSuccess "Enrollment complete!") (start_world w)).
  assert (Hall : ∀ pose img, (pose, img) ∈ images →
            ∃ r b, heap W !! img = Some (PilImage r) ∧ jpeg_encode r = Ok b).
  { intros pose img Hin.
    destruct (reachable_images_stored w Hr images pose img Hi Hin) as [r Hl].
    destruct (Henc images pose img r Hi Hin Hl) as [b Hb]. eauto. }
  destruct (write_images_run images W Hall []) as (entries & Hw & Hent).
  exists emp_id, name, images, entries.
  unfold build_zip, mbind, M_bind. rewrite Hw. cbn [fst snd app].
  repeat split; try assumption.
  rewrite (image_entry_names W images entries Hent), Hkeys. reflexivity.
Qed.

(** Accepting one valid frame after the other from a capture state. *)
Lemma accept_all inps : ∀ frames w step images,
  reachable w → ss_page (session w) = Some "capture" →
  ss_step (session w) = Some step → ss_images (session w) = Some images →
  Forall2 accepting inps frames → step + len inps <= 5 →
  ss_step (session (run_all inps w)) = Some (step + len inps) ∧
  ss_page (session (run_all inps w))
    = Some (if step + len inps =? 5 then "final" else "capture") ∧
  ss_name (session (run_all inps w)) = ss_name (session w) ∧
  ss_emp_id (session (run_all inps w)) = ss_emp_id (session w) ∧
  (∀ l r, heap w !! l = Some (PilImage r) →
          heap (run_all inps w) !! l = Some (PilImage r)) ∧
  ∃ new,
    ss_images (session (run_all inps w)) = Some (images ++ new) ∧
    Forall2 (holds_frame (run_all inps w)) new frames.
Proof.
  induction inps as [ | inp inps IH];
    intros frames w step images Hr Hp Hs Hi Hall Hbound.
  - apply Forall2_nil_inv_l in Hall as ->. cbn [run_all fold_left].
    destruct (reachable_live w _ Hr Hp)
      as (step' & images' & Hs' & _ & _ & Hpg & _).
    assert (step' = step) as -> by congruence.
    destruct Hpg as [[Hc _] | [(_ & Hrange & _) | [Hc _]]]; try discriminate.
    change (len []) with 0. rewrite Z.add_0_r.
    destruct (Z.eqb_spec step 5); [lia | ].
    repeat split; try assumption; auto.
    exists []. rewrite app_nil_r. split; [assumption | constructor].
  - apply Forall2_cons_inv_l in Hall as (r & frames' & Hacc & Hall & ->).
    destruct (accept_step inp w step images r Hr Hp Hs Hi Hacc)
      as (pose & instr & img & _ & _ & _ & Hold & Hs1 & Hi1 & Hp1 & Hn1 & He1).
    change (run_all (inp :: inps) w) with (run_all inps (run_script inp w).2).
    set (w1 := (run_script inp w).2) in *.
    assert (Hr1 : reachable w1) by apply reachable_run, Hr.
    assert (Hlen : len (inp :: inps) = 1 + len inps)
      by (unfold len; cbn [length]; lia).
    rewrite Hlen in *. replace (step + (1 + len inps)) with (step + 1 + len inps)
      by lia.
    destruct (Z.eqb_spec step 4) as [-> | Hne].
    + assert (inps = []) as ->.
      { destruct inps; [reflexivity | ]. unfold len in Hbound.
        cbn [length] in Hbound. lia. }
      apply Forall2_nil_inv_l in Hall as ->. cbn [run_all fold_left].
      change (len []) with 0. cbn.
      repeat split; try assumption.
      * intros l r0 Hl. apply run_keeps_images, Hl.
      * exists [(pose, img)]. split; [assumption | ].
        constructor; [exact Hold | constructor].
    + destruct (IH frames' w1 (step + 1) (images ++ [(pose, img)])
                  Hr1 Hp1 Hs1 Hi1 Hall) as (Hs2 & Hp2 & Hn2 & He2 & Hk2 & new &
                                              Hi2 & Hnew); [lia | ].
      repeat split; try assumption; try congruence.
      * intros l r0 Hl. apply Hk2, run_keeps_images, Hl.
      * exists ((pose, img) :: new). rewrite <- app_assoc in Hi2.
        split; [exact Hi2 | ].
        constructor; [apply Hk2, Hold | exact Hnew].
Qed.

(** X3: the whole walk.  From the fresh session, a run that presses "Start
    Enrollment" with a complete form, followed by five runs that each submit
    a valid single-face frame and press "Accept & Continue", ends on the
    final page with step 5, the identity as entered, and the accepted images
    keyed front, left, right, up, down in this order, each holding the
    frame submitted for its pose. *)
Theorem enrollment_completes start inps frames :
  starting start → Forall2 accepting inps frames → length inps = 5%nat →
  let w := run_all (start :: inps) initial_world in
  ss_page (session w) = Some "final" ∧ ss_step (session w) = Some 5 ∧
  ss_name (session w) = Some (w_name start) ∧
  ss_emp_id (session w) = Some (w_emp_id start) ∧
  ∃ images,
    ss_images (session w) = Some images ∧
    dict_keys images = pose_keys ∧
    Forall2 (holds_frame w) images frames.
Proof.
  intros (Hstart & Hname & Hemp & Hconsent) Hall Hlen w. subst w.
  change (run_all (start :: inps) initial_world)
    with (run_all inps (run_script start initial_world).2).
  set (w1 := (run_script start initial_world).2).
  assert (Hr1 : reachable w1) by apply reachable_run, reachable_initial.
  assert (Hs1 : session w1 = started (w_name start) (w_emp_id start)
                              (initialise empty_session)).
  { unfold w1. rewrite run_script_dispatch. cbn [initialise empty_session
      session initial_world is_none ss_page ss_step ss_images with_page
      with_step with_images String.eqb Ascii.eqb Bool.eqb].
    rewrite intro_page_run, Hstart, Hconsent.
    apply truthy_spec in Hname, Hemp. rewrite Hname, Hemp. reflexivity. }
  destruct (accept_all inps frames w1 0 [] Hr1)
    as (Hs & Hp & Hn & He & _ & new & Hi & Hnew);
    try (rewrite Hs1; reflexivity); try assumption.
  { unfold len. rewrite Hlen. lia. }
  assert (Hfive : 0 + len inps = 5) by (unfold len; rewrite Hlen; lia).
  rewrite Hfive in Hs, Hp. cbn in Hp.
  repeat split; try assumption.
  - rewrite Hn, Hs1. reflexivity.
  - rewrite He, Hs1. reflexivity.
  - exists new. cbn [app] in Hi. split; [exact Hi | ]. split; [ | exact Hnew].
    pose proof (reachable_ok _ (reachable_run_all inps w1 Hr1)) as Hok.
    unfold session_ok in Hok. rewrite Hp in Hok.
    destruct Hok as (step' & images' & Hs' & Hi' & [_ Hkeys] & _).
    assert (step' = 5) as -> by congruence.
    assert (images' = new) as -> by congruence.
    exact Hkeys.
Qed.

End Runs.

(** ** More on the helpers and the pages *)

Section MoreProperties.
Context `{Ext : External}.

Lemma save_jpeg_world img w :
  (save_jpeg img w).2 = w ∧ is_signal (save_jpeg img w).1 = false.
Proof.
  unfold save_jpeg, mbind, M_bind, load.
  destruct (heap w !! img) as [[r | r | g] | ]; cbn; auto.
  destruct (jpeg_encode r); cbn; auto.
Qed.

Lemma write_images_world images : ∀ zipf w,
  (write_images images zipf w).2 = w ∧
  is_signal (write_images images zipf w).1 = false.
Proof.
  induction images as [ | [pose img] rest IH]; intros zipf w; cbn.
  - auto.
  - unfold mbind, M_bind.
    destruct (save_jpeg_world img w) as [Hw Hg].
    destruct (save_jpeg img w) as [[b | e | | ] w1]; cbn in *;
      subst; try discriminate; auto.
Qed.

(** X11: when one of the images does not encode as JPEG, [build_zip]
    raises and returns no archive, not even a partial one; the store is as
    it was. *)
Theorem encoding_failure_returns_no_archive images metadata w :
  (∀ pose img, (pose, img) ∈ images →
     ∃ r, heap w !! img = Some (PilImage r)) →
  (∃ pose img r e, (pose, img) ∈ images ∧
     heap w !! img = Some (PilImage r) ∧ jpeg_encode r = Err e) →
  ∃ e, build_zip images metadata w = (Raise e, w).
Proof.
  intros Hall Hbad.
  destruct (write_images_failure images w Hall Hbad []) as [e He].
  exists e. unfold build_zip, mbind, M_bind. rewrite He. reflexivity.
Qed.

(** X12: [build_zip] works in memory only: whether it returns the archive
    or raises, the session state, the page and the store are exactly as
    they were before the call. *)
Theorem build_zip_leaves_the_world images metadata w :
  (build_zip images metadata w).2 = w ∧
  is_signal (build_zip images metadata w).1 = false.
Proof.
  unfold build_zip, mbind, M_bind.
  destruct (write_images_world images [] w) as [Hw Hg].
  destruct (write_images images [] w) as [[zipf | e | | ] w1]; cbn in *;
    subst; try discriminate; auto.
Qed.

(** X16: a candidate that [validate_single_face] rejects is never handed to
    the overlay: the page shows the step, the instruction and the error
    message but no preview, no ellipse is drawn, the session is unchanged
    and every object of the store is as it was. *)
Theorem rejected_frame_is_not_previewed inp w step images photo r :
  ss_page (session w) = Some "capture" →
  ss_step (session w) = Some step →
  ss_images (session w) = Some images →
  0 <= step < len POSES →
  w_photo inp = Some photo → image_open photo = Ok r →
  (∀ w0 img, heap w0 !! img = Some (PilImage r) →
             (validate_single_face img w0).1 = Ret false) →
  ∃ pose instr,
    POSES !! Z.to_nat step = Some (pose, instr) ∧
    ui (run_script inp w).2 =
      UiTitle "Employee Face Enrollment" :: capture_header step pose instr
      ++ [UiError "Exactly one face must be visible. Please retake."] ∧
    drawn (run_script inp w).2 = [] ∧
    session (run_script inp w).2 = session w ∧
    (∀ l o, heap w !! l = Some o → heap (run_script inp w).2 !! l = Some o).
Proof.
  intros Hp Hs Hi Hrange Hphoto Hopen Hval.
  destruct (run_script_capture inp w step images Hp Hs Hi) as [-> Hstart].
  destruct (py_index_in_range POSES step Hrange) as [[pose instr] Hidx].
  exists pose, instr. split; [apply py_index_nonneg; [lia | exact Hidx] | ].
  assert (Hheap : heap (start_world w) = heap w) by reflexivity.
  assert (Hui : ui (start_world w) = [UiTitle "Employee Face Enrollment"])
    by reflexivity.
  assert (Hdr : drawn (start_world w) = []) by reflexivity.
  rewrite <- Hstart in Hs. revert Hs Hstart Hheap Hui Hdr.
  generalize (start_world w). intros W Hs Hstart Hheap Hui Hdr.
  unfold capture_page, get_attr, get_session, mbind, M_bind. cbn.
  rewrite Hs. cbn. progress_runs. rewrite Hidx. cbn.
  rewrite Hphoto, Image_open_run, Hopen. cbn.
  set (img := fresh (dom (heap W))).
  match goal with |- context [validate_single_face img ?W1] =>
    destruct (validate_result img r W1 (lookup_insert_eq _ _ _))
      as (w1 & Hrun & Hs1 & Hu1 & Hd1 & Hk1);
    pose proof (Hval W1 img (lookup_insert_eq _ _ _)) as Hfalse;
    rewrite Hrun in Hfalse |- *
  end. cbn [fst] in Hfalse. rewrite Hfalse. cbn in Hs1, Hu1, Hd1, Hk1 |- *.
  rewrite Hu1, Hui, Hd1, Hdr, Hs1.
  repeat split; try assumption.
  intros l o Hl. apply Hk1. rewrite <- Hheap in Hl.
  apply insert_fresh_keeps, Hl.
Qed.

(** X17: as long as "Start Enrollment" is not pressed, a run on the intro
    page stores nothing, whatever the form contains: it shows the title
    only and stops, the page stays "intro" with step 0 and no images, and
    the identity attributes and the store are untouched.  This holds on
    first load, from the fresh session, too. *)
Theorem intro_page_waits_for_the_button inp w :
  session w = empty_session ∨
    (reachable w ∧ ss_page (session w) = Some "intro") →
  w_start inp = false →
  (run_script inp w).1 = StopScript ∧
  ui (run_script inp w).2 = [UiTitle "Employee Face Enrollment"] ∧
  heap (run_script inp w).2 = heap w ∧
  ss_page (session (run_script inp w).2) = Some "intro" ∧
  ss_step (session (run_script inp w).2) = Some 0 ∧
  ss_images (session (run_script inp w).2) = Some [] ∧
  ss_name (session (run_script inp w).2) = ss_name (session w) ∧
  ss_emp_id (session (run_script inp w).2) = ss_emp_id (session w).
Proof.
  intros Hw Hstart.
  assert (Hinit : ss_page (initialise (session w)) = Some "intro" ∧
                  ss_step (initialise (session w)) = Some 0 ∧
                  ss_images (initialise (session w)) = Some [] ∧
                  ss_name (initialise (session w)) = ss_name (session w) ∧
                  ss_emp_id (initialise (session w)) = ss_emp_id (session w)).
  { destruct Hw as [-> | [Hr Hp]]; [repeat split | ].
    destruct (reachable_live w _ Hr Hp)
      as (step & images & Hs & Hi & [Hlen _] & Hpg & ->).
    destruct Hpg as [[_ ->] | [[Hc _] | [Hc _]]]; try discriminate.
    assert (images = []) as ->.
    { destruct images; [reflexivity | ]. unfold len in Hlen. cbn in Hlen. lia. }
    auto. }
  rewrite run_script_dispatch.
  destruct Hinit as (Hp & Hs & Hi & Hn & He). rewrite Hp.
  cbn [String.eqb Ascii.eqb Bool.eqb].
  rewrite intro_page_run, Hstart. cbn [fst snd].
  change (session (start_world w)) with (initialise (session w)).
  repeat split; assumption.
Qed.

End MoreProperties.

(** ** The timestamp *)

Lemma digit_value_digit_char (z : Z) : digit_value (digit_char z) = z mod 10.
Proof.
  unfold digit_char, digit_value.
  assert (Hm : 0 <= z mod 10 < 10) by (apply Z.mod_pos_bound; lia).
  assert (Hc : z mod 10 = 0 ∨ z mod 10 = 1 ∨ z mod 10 = 2 ∨ z mod 10 = 3 ∨
               z mod 10 = 4 ∨ z mod 10 = 5 ∨ z mod 10 = 6 ∨ z mod 10 = 7 ∨
               z mod 10 = 8 ∨ z mod 10 = 9) by lia.
  repeat destruct Hc as [-> | Hc]; try rewrite Hc; reflexivity.
Qed.

Lemma string_app_assoc (s t u : string) : (s +:+ t) +:+ u = s +:+ (t +:+ u).
Proof.
  induction s as [ | c s IH]; [reflexivity | ].
  change (String c ((s +:+ t) +:+ u) = String c (s +:+ (t +:+ u))).
  now rewrite IH.
Qed.

Lemma string_app_nil_r (s : string) : s +:+ "" = s.
Proof.
  induction s as [ | c s IH]; [reflexivity | ].
  change (String c (s +:+ "") = String c s). now rewrite IH.
Qed.

(** Reading one more digit is reading the last one separately. *)
Lemma read_digits_last (n : nat) : ∀ acc s,
  read_digits (S n) acc s =
  match read_digits n acc s with
  | Some (a, String c s') =>
      if is_digit c then Some (10 * a + digit_value c, s') else None
  | _ => None
  end.
Proof.
  induction n as [ | n IH]; intros acc s.
  - cbn. destruct s as [ | c s]; [reflexivity | ].
    destruct (is_digit c); reflexivity.
  - change (read_digits (S (S n)) acc s) with
      (match s with
       | String c s' =>
           if is_digit c then read_digits (S n) (10 * acc + digit_value c) s'
           else None
       | EmptyString => None
       end).
    destruct s as [ | c s]; [reflexivity | ].
    cbn [read_digits]. destruct (is_digit c); [ | reflexivity ].
    rewrite <- IH. reflexivity.
Qed.

(** [read_digits] reads back what [zero_pad] printed. *)
Lemma read_digits_zero_pad (n : nat) : ∀ z acc rest,
  read_digits n acc (zero_pad n z +:+ rest)
  = Some (acc * 10 ^ Z.of_nat n + z mod 10 ^ Z.of_nat n, rest).
Proof.
  induction n as [ | n IH]; intros z acc rest.
  - cbn [read_digits zero_pad]. change ("" +:+ rest) with rest.
    change (10 ^ Z.of_nat 0) with 1. rewrite Z.mod_1_r. f_equal. f_equal. lia.
  - rewrite read_digits_last. cbn [zero_pad].
    rewrite string_app_assoc.
    change (String (digit_char z) "" +:+ rest)
      with (String (digit_char z) rest).
    rewrite IH, is_digit_digit_char, digit_value_digit_char.
    f_equal. f_equal.
    rewrite Nat2Z.inj_succ, Z.pow_succ_r by lia.
    assert (Hp : 0 < 10 ^ Z.of_nat n) by (apply Z.pow_pos_nonneg; lia).
    rewrite (Z.rem_mul_r z 10 (10 ^ Z.of_nat n)) by lia. lia.
Qed.

Lemma read_digits_field (n : nat) z rest :
  0 <= z < 10 ^ Z.of_nat n →
  read_digits n 0 (zero_pad n z +:+ rest) = Some (z, rest).
Proof.
  intros Hz. rewrite read_digits_zero_pad, Z.mod_small by exact Hz.
  reflexivity.
Qed.

Lemma days_in_month_le y m : days_in_month y m <= 31.
Proof.
  unfold days_in_month.
  destruct (m =? 2); [destruct (is_leap y); lia | ].
  destruct (_ || _); lia.
Qed.

Lemma valid_datetime_fields t :
  valid_datetime t = true →
  0 <= year t < 10000 ∧ 0 <= month t < 100 ∧ 0 <= day t < 100 ∧
  0 <= hour t < 100 ∧ 0 <= minute t < 100 ∧ 0 <= second t < 100 ∧
  0 <= microsecond t < 1000000.
Proof.
  unfold valid_datetime. intros H.
  repeat (apply andb_prop in H as [H ?]).
  pose proof (days_in_month_le (year t) (month t)). lia.
Qed.

(** Steps over a field that was read and over the separator [c]. *)
Ltac read_sep c :=
  cbv beta iota delta [mbind option_bind];
  match goal with
  | |- context [String.append (String c EmptyString) ?s] =>
      change (String.append (String c EmptyString) s) with (String c s)
  end;
  cbv beta iota delta [read_char]; cbn [Ascii.eqb Bool.eqb].

(** [fromisoformat] reads back the datetime [isoformat] printed. *)
Lemma fromisoformat_isoformat (t : datetime) :
  valid_datetime t = true → fromisoformat (isoformat t) = Some t.
Proof.
  intros Hv.
  destruct (valid_datetime_fields t Hv) as (Hy & Hm & Hd & Hh & Hmi & Hs & Hus).
  unfold isoformat, fromisoformat.
  rewrite (read_digits_field 4) by (change (10 ^ Z.of_nat 4) with 10000; lia).
  read_sep "-"%char.
  rewrite (read_digits_field 2) by (change (10 ^ Z.of_nat 2) with 100; lia).
  read_sep "-"%char.
  rewrite (read_digits_field 2) by (change (10 ^ Z.of_nat 2) with 100; lia).
  read_sep "T"%char.
  rewrite (read_digits_field 2) by (change (10 ^ Z.of_nat 2) with 100; lia).
  read_sep ":"%char.
  rewrite (read_digits_field 2) by (change (10 ^ Z.of_nat 2) with 100; lia).
  read_sep ":"%char.
  rewrite (read_digits_field 2) by (change (10 ^ Z.of_nat 2) with 100; lia).
  cbv beta iota delta [mbind option_bind].
  destruct t as [y m d h mi s us].
  cbn [year month day hour minute second microsecond] in *.
  destruct (Z.eqb_spec us 0) as [-> | Hne].
  - cbv beta iota delta [read_fraction]. cbn [String.eqb andb].
    rewrite Hv. reflexivity.
  - change ("." +:+ zero_pad 6 us) with (String "." (zero_pad 6 us)).
    cbv beta iota delta [read_fraction mbind option_bind read_char].
    cbn [Ascii.eqb Bool.eqb].
    rewrite <- (string_app_nil_r (zero_pad 6 us)).
    rewrite (read_digits_field 6)
      by (change (10 ^ Z.of_nat 6) with 1000000; lia).
    cbn [String.eqb andb]. rewrite Hv. reflexivity.
Qed.

(** The calendar, checked day by day. *)
Lemma calendar_checked : all_from calendar_ok (Z.to_nat 65536) 0 = true.
Proof. vm_compute. reflexivity. Qed.

Lemma utcfromtimestamp_spec secs us :
  0 <= secs < max_timestamp → 0 <= us < 1000000 →
  valid_datetime (utcfromtimestamp secs us) = true ∧
  timegm (utcfromtimestamp secs us) = secs ∧
  microsecond (utcfromtimestamp secs us) = us.
Proof.
  unfold max_timestamp. intros Hs Hus.
  assert (Hday : calendar_ok (secs / 86400) = true).
  { apply (all_from_spec calendar_ok (Z.to_nat 65536) 0 calendar_checked).
    rewrite Z2Nat.id by lia. split; [apply Z.div_pos; lia | ].
    apply Z.div_lt_upper_bound; lia. }
  unfold utcfromtimestamp, timegm, valid_datetime, calendar_ok in *.
  destruct (civil_from_days (secs / 86400)) as [[y m] d].
  cbn [year month day hour minute second microsecond].
  repeat (apply andb_prop in Hday as [Hday ?]).
  apply Z.eqb_eq in Hday. rewrite Hday.
  split; [ | split; [ | reflexivity] ].
  - repeat (apply andb_true_intro; split); try assumption;
      first [apply Z.leb_le | apply Z.ltb_lt];
      Z.to_euclidean_division_equations; lia.
  - Z.to_euclidean_division_equations. lia.
Qed.

(** ** The session invariant and the metadata record *)

Section SessionClaims.
Context `{Ext : External}.

(** C1: after every script run from a reachable state, whatever the
    transition was (intro submit, retake, failed validation, accept or
    none), the step counter equals the number of accepted images and their
    keys are the first [step] poses in order.  Acceptance and advancement
    are one step, in both directions.  A run either leaves the counter and
    the images as they were, or it is an accept from the capture page: the
    run had a photo that decoded to a frame [r] on which the validator
    says true, with "Accept & Continue" pressed and "Retake" not, and it
    appended a new image object holding [r] under the current pose key
    and advanced the counter by one.  Conversely, in a capture state,
    submitting a frame that decodes to [r], shows one face and has the
    size of a camera frame, and pressing "Accept & Continue", does store
    [r] under the current pose key and advance the counter, in the same
    run. *)
Theorem C1_step_counts_accepted_images inp w :
  reachable w →
  let w' := (run_script inp w).2 in
  (∃ step images,
      ss_step (session w') = Some step ∧
      ss_images (session w') = Some images ∧
      step = len images ∧
      dict_keys images = take (Z.to_nat step) pose_keys) ∧
  (∀ step images,
      ss_step (session w) = Some step →
      ss_images (session w) = Some images →
      (ss_step (session w') = Some step ∧
       ss_images (session w') = Some images) ∨
      (∃ pose instr photo r img,
          ss_page (session w) = Some "capture" ∧
          POSES !! Z.to_nat step = Some (pose, instr) ∧
          w_photo inp = Some photo ∧ image_open photo = Ok r ∧
          validation r = Ok true ∧
          w_retake inp = false ∧ w_accept inp = true ∧
          heap w !! img = None ∧
          heap w' !! img = Some (PilImage r) ∧
          ss_step (session w') = Some (step + 1) ∧
          ss_images (session w') = Some (images ++ [(pose, img)]))) ∧
  (∀ step images r,
      ss_page (session w) = Some "capture" →
      ss_step (session w) = Some step →
      ss_images (session w) = Some images →
      accepting inp r →
      ∃ pose instr img,
        POSES !! Z.to_nat step = Some (pose, instr) ∧
        (run_script inp w).1 = RerunScript ∧
        heap w !! img = None ∧
        heap w' !! img = Some (PilImage r) ∧
        ss_step (session w') = Some (step + 1) ∧
        ss_images (session w') = Some (images ++ [(pose, img)])).
Proof.
  intros Hr w'. split; [ | split ].
  - pose proof (session_ok_run inp w (reachable_ok w Hr)) as Hok.
    destruct (run_page_set inp w) as [page Hp]. fold w' in Hok, Hp.
    unfold session_ok in Hok. rewrite Hp in Hok.
    destruct Hok as (step & images & Hs & Hi & [Hlen Hkeys] & _).
    exists step, images. auto.
  - intros step images Hs Hi.
    pose proof (reachable_ok w Hr) as Hok. unfold session_ok in Hok.
    destruct (ss_page (session w)) as [page | ] eqn:Hp;
      [ | rewrite Hok in Hs; discriminate ].
    destruct Hok as (step' & images' & Hs' & Hi' & Hpre & Hpg).
    assert (step' = step) as -> by congruence.
    assert (images' = images) as -> by congruence.
    pose proof (initialise_ready _ _ _ _ Hp Hs Hi) as Hinit.
    pose proof (run_script_changes inp w) as Hcases.
    cbn zeta in Hcases. fold w' in Hcases. rewrite Hinit in Hcases.
    destruct Hcases as [Hsame | [(_ & Hst) | (Hc & Hacc)]].
    + left. rewrite Hsame. auto.
    + left. rewrite Hst. cbn. auto.
    + destruct Hacc as (step' & pose & instr & images' & photo & r & img &
                        Hs2 & Hi2 & Hidx & Hphoto & Hopen & Hv & Hre & Hac &
                        Hnew & Hold & Hsess).
      assert (step' = step) as -> by congruence.
      assert (images' = images) as -> by congruence.
      rewrite Hp in Hc. injection Hc as ->.
      destruct Hpg as [[Hc _] | [(_ & Hrange & _) | [Hc _]]];
        try discriminate.
      destruct (prefix_state_accept step images pose instr img)
        as [Hset _]; [lia | assumption | assumption | ].
      right. exists pose, instr, photo, r, img.
      repeat split; try assumption.
      * apply py_index_nonneg; [lia | assumption].
      * rewrite Hsess. unfold accepted. destruct (_ <=? _); reflexivity.
      * rewrite Hsess, <- Hset. unfold accepted.
        destruct (_ <=? _); reflexivity.
  - intros step images r Hp Hs Hi Hacc.
    destruct (accept_step inp w step images r Hr Hp Hs Hi Hacc)
      as (pose & instr & img & Hidx & Hout & Hnew & Hold & Hs' & Hi' & _).
    exists pose, instr, img. auto 10.
Qed.

(** C9: on the final page of a reachable session, when the JPEG encoder
    accepts the accepted frames, the run completes and the archive it
    offers for download ends with the entry "metadata.json", which is the
    dump of a record of exactly five fields, in this order: employee_id
    and name, the identity of the session; poses, the keys of the accepted
    images in insertion order, which are the five poses in the order of
    [POSES]; timestamp; and source, the constant
    "streamlit-frontend-preview".  The timestamp is ISO 8601 text of the
    UTC clock: [fromisoformat] reads back exactly the fields that
    [datetime.utcnow()] returned, and when the clock was read [secs]
    seconds and [us] microseconds after 1970-01-01T00:00:00 UTC, these
    fields, taken as a UTC date and time, are that instant.  (The text
    carries no "Z" and no offset: [utcnow] returns a naive datetime.) *)
Theorem C9_final_metadata inp w :
  reachable w → ss_page (session w) = Some "final" →
  (∀ images pose img r,
      ss_images (session w) = Some images → (pose, img) ∈ images →
      heap w !! img = Some (PilImage r) → ∃ b, jpeg_encode r = Ok b) →
  valid_datetime (w_utcnow inp) = true →
  ∃ emp_id name images entries timestamp,
    ss_emp_id (session w) = Some emp_id ∧
    ss_name (session w) = Some name ∧
    ss_images (session w) = Some images ∧
    dict_keys images = ["front"; "left"; "right"; "up"; "down"] ∧
    (run_script inp w).1 = Ret tt ∧
    ui (run_script inp w).2 =
      [ UiTitle "Employee Face Enrollment";
        UiSuccess "Enrollment complete!";
        UiDownload "📥 Download Captured Data (ZIP)"
          (entries ++
           [ ("metadata.json",
              list_byte_of_string
                (json_dumps
                   [ ("employee_id", JStr emp_id);
                     ("name", JStr name);
                     ("poses", JStrList (dict_keys images));
                     ("timestamp", JStr timestamp);
                     ("source", JStr "streamlit-frontend-preview") ] 2)) ])
          (emp_id +:+ "_" +:+ name +:+ ".zip") "application/zip";
        UiInfo "This is a frontend-only preview. Backend upload is disabled."
      ] ∧
    fst <$> entries =
      ["front.jpg"; "left.jpg"; "right.jpg"; "up.jpg"; "down.jpg"] ∧
    fromisoformat timestamp = Some (w_utcnow inp) ∧
    ∀ secs us,
      0 <= secs < max_timestamp → 0 <= us < 1000000 →
      w_utcnow inp = utcfromtimestamp secs us →
      ∃ t, fromisoformat timestamp = Some t ∧
           timegm t = secs ∧ microsecond t = us.
Proof.
  intros Hr Hp Henc Hclock.
  destruct (reachable_live w _ Hr Hp)
    as (step & images & Hs & Hi & [Hlen Hkeys] & Hpg & Hinit).
  destruct Hpg as [[Hc _] | [[Hc _] | (_ & -> & [name Hn] & [emp_id He])]];
    try discriminate.
  destruct (run_script_final inp w 5 images Hp Hs Hi) as [Hrun Hstart].
  rewrite Hrun.
  rewrite (final_page_run inp (start_world w) emp_id name images)
    by (rewrite Hstart; assumption).
  set (W := add_ui (UiSuccess "Enrollment complete!") (start_world w)).
  assert (Hall : ∀ pose img, (pose, img) ∈ images →
            ∃ r b, heap W !! img = Some (PilImage r) ∧ jpeg_encode r = Ok b).
  { intros pose img Hin.
    destruct (reachable_images_stored w Hr images pose img Hi Hin) as [r Hl].
    destruct (Henc images pose img r Hi Hin Hl) as [b Hb]. eauto. }
  destruct (write_images_run images W Hall []) as (entries & Hw & Hent).
  exists emp_id, name, images, entries, (isoformat (w_utcnow inp)).
  unfold build_zip, mbind, M_bind. rewrite Hw. cbn [fst snd app].
  split; [assumption | ]. split; [assumption | ]. split; [assumption | ].
  split; [exact Hkeys | ]. split; [reflexivity | ]. split; [reflexivity | ].
  split.
  { pose proof (image_entry_names W images entries Hent) as Hnames.
    rewrite Hkeys in Hnames. exact Hnames. }
  split; [apply fromisoformat_isoformat, Hclock | ].
  intros secs us Hsecs Hus Hnow.
  destruct (utcfromtimestamp_spec secs us Hsecs Hus) as (_ & Htime & Hmicro).
  exists (w_utcnow inp).
  split; [apply fromisoformat_isoformat, Hclock | ].
  rewrite Hnow. split; assumption.
Qed.

End SessionClaims.

(** ** Concrete runs *)

#[local] Existing Instance Demo.toy.

Lemma reachable_at_capture0 : reachable Demo.at_capture0.
Proof. apply reachable_run, reachable_initial. Defined.

Lemma reachable_at_intro : reachable Demo.at_intro.
Proof. apply reachable_run, reachable_initial. Defined.

Lemma reachable_at_final : reachable Demo.at_final.
Proof.
  unfold Demo.at_final, Demo.after. cbn [Nat.iter].
  do 5 apply reachable_run. exact reachable_at_capture0.
Defined.

Lemma toy_rejects_unreadable w0 img :
  heap w0 !! img = Some (PilImage Demo.unreadable) →
  (validate_single_face img w0).1 = Raise (cv2_error "detectMultiScale").
Proof. intros Hin. rewrite (validate_run img _ w0 Hin). reflexivity. Defined.

Lemma toy_rejects_two_faces w0 img :
  heap w0 !! img = Some (PilImage Demo.two_faces) →
  (validate_single_face img w0).1 = Ret false.
Proof. intros Hin. rewrite (validate_run img _ w0 Hin). reflexivity. Defined.

Lemma toy_accepting : accepting (Demo.accept Demo.one_face) Demo.one_face.
Proof.
  exists Demo.one_face. split; [reflexivity | ]. split; [reflexivity | ].
  split; [ | split; reflexivity ].
  split; [reflexivity | ]. unfold max_dimension. cbn. lia.
Defined.

Lemma toy_encodes_accepted images pose img r :
  ss_images (session Demo.at_final) = Some images → (pose, img) ∈ images →
  heap Demo.at_final !! img = Some (PilImage r) →
  ∃ b, jpeg_encode r = Ok b.
Proof.
  intros Hi Hin Hl. vm_compute in Hi. injection Hi as <-.
  repeat (apply elem_of_cons in Hin as [Hin | Hin];
          [ injection Hin as -> ->; vm_compute in Hl; injection Hl as <-;
            eexists; reflexivity | ]).
  inversion Hin.
Defined.

Lemma C1_witness :
  reachable Demo.at_capture0 ∧
  accepting (Demo.accept Demo.one_face) Demo.one_face ∧
  ∃ img,
    heap (run_script (Demo.accept Demo.one_face) Demo.at_capture0).2 !! img
      = Some (PilImage Demo.one_face) ∧
    ss_step (session (run_script (Demo.accept Demo.one_face)
                        Demo.at_capture0).2) = Some 1 ∧
    ss_images (session (run_script (Demo.accept Demo.one_face)
                          Demo.at_capture0).2) = Some [("front", img)].
Proof.
  split; [exact reachable_at_capture0 | ]. split; [exact toy_accepting | ].
  pose proof (C1_step_counts_accepted_images (Demo.accept Demo.one_face)
                Demo.at_capture0 reachable_at_capture0) as H.
  cbn zeta in H. destruct H as (_ & _ & Hacc).
  destruct (Hacc 0 [] Demo.one_face eq_refl eq_refl eq_refl toy_accepting)
    as (pose & instr & img & Hidx & _ & _ & Hold & Hs & Hi).
  injection Hidx as <- <-.
  exists img. split; [exact Hold | ]. split; [exact Hs | exact Hi].
Defined.

Lemma C2_witness :
  heap (Demo.store_of Demo.one_face) !! 1%positive
    = Some (PilImage Demo.one_face) ∧
  (validate_single_face 1%positive (Demo.store_of Demo.one_face)).1 = Ret true.
Proof.
  split; [reflexivity | ].
  apply (C2_validate_single_face_iff_one_region 1%positive Demo.one_face
           (Demo.store_of Demo.one_face) eq_refl).
  eexists _, _. repeat split; reflexivity.
Defined.

Lemma C3_witness :
  NoDup (dict_keys [("front", 1%positive)]) ∧
  ∃ zip,
    build_zip [("front", 1%positive)]
      (make_metadata "E1" "Al" [("front", 1%positive)] Demo.noon)
      (Demo.store_of Demo.one_face)
    = (Ret zip, Demo.store_of Demo.one_face) ∧
    fst <$> zip = ["front.jpg"; "metadata.json"].
Proof.
  assert (Hnd : NoDup (dict_keys [("front", 1%positive)]))
    by apply NoDup_singleton.
  split; [exact Hnd | ].
  destruct (C3_build_zip_entries [("front", 1%positive)]
              (make_metadata "E1" "Al" [("front", 1%positive)] Demo.noon)
              (Demo.store_of Demo.one_face) Hnd) as [Hinv Hrun].
  destruct Hrun as [zip Hzip].
  - intros pose img Hin. apply list_elem_of_singleton in Hin.
    injection Hin as -> ->. eexists _, _. split; reflexivity.
  - exists zip. split; [exact Hzip | ].
    destruct (Hinv zip _ Hzip) as (_ & entries & _ & _ & Hnames & _).
    exact Hnames.
Defined.

Lemma C4_witness :
  ss_page (session Demo.at_capture0) = Some "capture" ∧
  0 <= 0 < len POSES ∧
  (run_script (Demo.accept Demo.two_faces) Demo.at_capture0).1 = StopScript ∧
  session (run_script (Demo.accept Demo.two_faces) Demo.at_capture0).2
    = session Demo.at_capture0 ∧
  session (run_script (Demo.retake Demo.one_face) Demo.at_capture0).2
    = session Demo.at_capture0.
Proof.
  assert (Hrange : 0 <= 0 < len POSES) by (unfold len; cbn; lia).
  split; [reflexivity | ]. split; [exact Hrange | ].
  pose proof (C4_retake_and_rejection_keep_session
                (Demo.accept Demo.two_faces) Demo.at_capture0 0 []
                eq_refl eq_refl eq_refl Hrange) as [_ Hrej].
  pose proof (C4_retake_and_rejection_keep_session
                (Demo.retake Demo.one_face) Demo.at_capture0 0 []
                eq_refl eq_refl eq_refl Hrange) as [Hre _].
  destruct (Hrej Demo.two_faces Demo.two_faces eq_refl eq_refl
              toy_rejects_two_faces) as (Hstop & Hsame & _).
  split; [exact Hstop | ]. split; [exact Hsame | ]. exact (Hre eq_refl).
Defined.

(** C5 as the specification states it fails: on a candidate the detector
    cannot process, the run is not answered like a validation failure; the
    exception ends it. *)
Lemma C5_counterexample :
  (∀ w0 img, heap w0 !! img = Some (PilImage Demo.unreadable) →
     (validate_single_face img w0).1 = Raise (cv2_error "detectMultiScale")) ∧
  (run_script (Demo.accept Demo.unreadable) Demo.at_capture0).1
    = Raise (cv2_error "detectMultiScale") ∧
  ¬ treated_as_validation_failure (Demo.accept Demo.unreadable)
      Demo.at_capture0.
Proof.
  split; [exact toy_rejects_unreadable | ].
  split; [vm_compute; reflexivity | ].
  intros [Hstop _]. vm_compute in Hstop. discriminate.
Qed.

Lemma C5_witness :
  ss_page (session Demo.at_capture0) = Some "capture" ∧
  (run_script (Demo.accept Demo.unreadable) Demo.at_capture0).1
    = Raise (cv2_error "detectMultiScale") ∧
  session (run_script (Demo.accept Demo.unreadable) Demo.at_capture0).2
    = session Demo.at_capture0.
Proof.
  assert (Hrange : 0 <= 0 < len POSES) by (unfold len; cbn; lia).
  split; [reflexivity | ].
  destruct (C5_detector_failure_ends_the_run
              (Demo.accept Demo.unreadable) Demo.at_capture0 0 []
              Demo.unreadable Demo.unreadable (cv2_error "detectMultiScale")
              eq_refl eq_refl eq_refl Hrange eq_refl eq_refl
              toy_rejects_unreadable)
    as (pose & instr & _ & Hraise & Hsame & _).
  split; [exact Hraise | exact Hsame].
Defined.

(** C6 as the specification states it fails: on a frame 3 wide and 180
    high the centre is (1, 90) and the semi-axes are (0, 62), not (1.5, 90)
    and (0.75, 63). *)
Lemma C6_counterexample :
  ∃ c,
    drawn (overlay_face_outline 1%positive (Demo.store_of Demo.tall)).2 = [c] ∧
    e_center c = (1, 90) ∧ e_axes c = (0, 62) ∧
    ¬ exact_guide 3 180 c.
Proof.
  eexists. split; [vm_compute; reflexivity | ].
  split; [reflexivity | ]. split; [reflexivity | ].
  unfold exact_guide. cbn. lia.
Qed.

Lemma C6_witness :
  heap (Demo.store_of Demo.tall) !! 1%positive = Some (PilImage Demo.tall) ∧
  0 < width Demo.tall <= max_dimension ∧
  0 < height Demo.tall <= max_dimension ∧
  ∃ c b,
    drawn (overlay_face_outline 1%positive (Demo.store_of Demo.tall)).2
      = drawn (Demo.store_of Demo.tall) ++ [c] ∧
    geometry c = ((1, 90), (0, b), 0, 0, 360, 2).
Proof.
  assert (Hw : 0 < width Demo.tall <= max_dimension)
    by (unfold max_dimension; cbn; lia).
  assert (Hh : 0 < height Demo.tall <= max_dimension)
    by (unfold max_dimension; cbn; lia).
  split; [reflexivity | ]. split; [exact Hw | ]. split; [exact Hh | ].
  destruct (C6_guide_geometry 1%positive Demo.tall (Demo.store_of Demo.tall)
              eq_refl Hw Hh) as (c & b & Hd & _ & _ & Hg & _).
  exists c, b. split; [exact Hd | exact Hg].
Defined.

Lemma C7_witness :
  heap (Demo.store_of Demo.one_face) !! 1%positive
    = Some (PilImage Demo.one_face) ∧
  ∃ out,
    (overlay_face_outline 1%positive (Demo.store_of Demo.one_face)).1 = Ret out ∧
    out ≠ 1%positive ∧
    heap (overlay_face_outline 1%positive (Demo.store_of Demo.one_face)).2
      !! 1%positive = Some (PilImage Demo.one_face).
Proof.
  assert (Hw : 0 < width Demo.one_face <= max_dimension)
    by (unfold max_dimension; cbn; lia).
  assert (Hh : 0 < height Demo.one_face <= max_dimension)
    by (unfold max_dimension; cbn; lia).
  split; [reflexivity | ].
  destruct (C7_overlay_returns_a_new_image 1%positive Demo.one_face
              (Demo.store_of Demo.one_face) eq_refl)
    as (Hkeep & Hnew & Hret).
  destruct (Hret Hw Hh) as [out Hout].
  exists out. split; [exact Hout | ].
  split; [exact (proj1 (Hnew out Hout)) | exact Hkeep].
Defined.

Lemma C8_witness :
  reachable Demo.at_intro ∧
  ss_page (session Demo.at_intro) = Some "intro" ∧
  ss_page (session (run_script Demo.start_ok Demo.at_intro).2)
    = Some "capture" ∧
  session (run_script Demo.start_no_consent Demo.at_intro).2
    = session Demo.at_intro.
Proof.
  split; [exact reachable_at_intro | ]. split; [reflexivity | ].
  pose proof (C8_intro_guard Demo.start_ok Demo.at_intro
                reachable_at_intro eq_refl) as (Hiff & _ & _).
  pose proof (C8_intro_guard Demo.start_no_consent Demo.at_intro
                reachable_at_intro eq_refl) as (_ & _ & Hno).
  split.
  - apply Hiff. repeat split; discriminate.
  - apply Hno; [reflexivity | ]. intros (_ & _ & Hc). discriminate.
Defined.

Lemma C9_witness :
  reachable Demo.at_final ∧
  ss_page (session Demo.at_final) = Some "final" ∧
  valid_datetime (w_utcnow Demo.idle) = true ∧
  w_utcnow Demo.idle = utcfromtimestamp 1704110400 0 ∧
  (run_script Demo.idle Demo.at_final).1 = Ret tt ∧
  ∃ (images : dict loc) entries timestamp t,
    ui (run_script Demo.idle Demo.at_final).2 !! 2%nat =
      Some (UiDownload "📥 Download Captured Data (ZIP)"
              (entries ++
               [ ("metadata.json",
                  list_byte_of_string
                    (json_dumps
                       [ ("employee_id", JStr "E1");
                         ("name", JStr "Al");
                         ("poses", JStrList (dict_keys images));
                         ("timestamp", JStr timestamp);
                         ("source", JStr "streamlit-frontend-preview") ] 2)) ])
              "E1_Al.zip" "application/zip") ∧
    dict_keys images = ["front"; "left"; "right"; "up"; "down"] ∧
    fromisoformat timestamp = Some t ∧ timegm t = 1704110400.
Proof.
  assert (Hp : ss_page (session Demo.at_final) = Some "final")
    by (vm_compute; reflexivity).
  assert (Hv : valid_datetime (w_utcnow Demo.idle) = true)
    by (vm_compute; reflexivity).
  assert (Hnow : w_utcnow Demo.idle = utcfromtimestamp 1704110400 0)
    by (vm_compute; reflexivity).
  split; [exact reachable_at_final | ]. split; [exact Hp | ].
  split; [exact Hv | ]. split; [exact Hnow | ].
  destruct (C9_final_metadata Demo.idle Demo.at_final reachable_at_final Hp
              toy_encodes_accepted Hv)
    as (emp_id & name & images & entries & timestamp & He & Hn & _ & Hk &
        Hret & Hui & _ & _ & Hutc).
  split; [exact Hret | ].
  destruct (Hutc 1704110400 0) as (t & Ht & Hsecs & _);
    [unfold max_timestamp; lia | lia | exact Hnow | ].
  assert (emp_id = "E1") as -> by (vm_compute in He; congruence).
  assert (name = "Al") as -> by (vm_compute in Hn; congruence).
  exists images, entries, timestamp, t.
  split; [rewrite Hui; reflexivity | ].
  split; [exact Hk | ]. split; [exact Ht | exact Hsecs].
Defined.

Lemma C10_witness :
  reachable Demo.at_capture0 ∧
  ss_page (session Demo.at_capture0) = Some "capture" ∧
  ∃ step pose,
    ss_step (session Demo.at_capture0) = Some step ∧
    0 <= step < len POSES ∧ py_index POSES step = Ok pose.
Proof.
  split; [exact reachable_at_capture0 | ]. split; [reflexivity | ].
  exact (proj1 (C10_capture_step_in_bounds Demo.at_capture0
                  reachable_at_capture0) eq_refl).
Defined.

(** The full walk: valid identity, then five accepted single-face frames. *)
Example end_to_end :
  ss_page (session Demo.at_final) = Some "final" ∧
  ss_step (session Demo.at_final) = Some 5 ∧
  (dict_keys <$> ss_images (session Demo.at_final)) = Some pose_keys.
Proof. vm_compute. repeat split. Qed.

(** The timestamp of a run at noon UTC on 2024-01-01, without and with a
    fraction of a second; a text with fields no date has, or with a zone
    designator, is not what [isoformat] prints and does not read back. *)
Example timestamp_text :
  isoformat (utcfromtimestamp 1704110400 0) = "2024-01-01T12:00:00" ∧
  isoformat (utcfromtimestamp 1704110400 250) = "2024-01-01T12:00:00.000250" ∧
  fromisoformat "2024-01-01T12:00:00.000250"
    = Some (mkDatetime 2024 1 1 12 0 0 250) ∧
  fromisoformat "9999-99-99T99:99:99" = None ∧
  fromisoformat "2023-02-29T00:00:00" = None ∧
  fromisoformat "2024-01-01T12:00:00Z" = None.
Proof. vm_compute. repeat split. Qed.

(** The three float literals denote the doubles nearest to the decimals. *)
Example float_literals :
  PyNum.lit_0_25 = PyNum.decimal 25 100 ∧
  PyNum.lit_0_35 = PyNum.decimal 35 100 ∧
  PyNum.lit_1_2 = PyNum.decimal 12 10.
Proof. vm_compute. repeat split. Qed.

(** 35% of 180 is 63, but the product 180 * 0.35 is a double just below 63
    and [int] truncates it. *)
Example truncated_semi_axis :
  PyNum.int_of_scaled 180 PyNum.lit_0_35 = Ok 62 ∧
  PyNum.int_of_scaled 720 PyNum.lit_0_35 = Ok 251.
Proof. vm_compute. split; reflexivity. Qed.

(** ** Concrete runs for the further properties *)

Lemma toy_starting : starting Demo.start_ok.
Proof. repeat split; discriminate. Defined.

Lemma accept_advances_witness :
  reachable Demo.at_capture0 ∧
  accepting (Demo.accept Demo.one_face) Demo.one_face ∧
  ss_step (session (run_script (Demo.accept Demo.one_face)
                      Demo.at_capture0).2) = Some 1.
Proof.
  split; [exact reachable_at_capture0 | ]. split; [exact toy_accepting | ].
  destruct (accept_advances (Demo.accept Demo.one_face) Demo.at_capture0 0 []
              Demo.one_face reachable_at_capture0 eq_refl eq_refl eq_refl
              toy_accepting)
    as (pose & instr & img & preview & _ & _ & _ & _ & _ & _ & Hs & _).
  exact Hs.
Defined.

Lemma only_validated_frames_are_stored_witness :
  reachable Demo.at_capture0 ∧
  ss_images (session Demo.at_capture0) = Some [] ∧
  w_accept (Demo.accept Demo.one_face) = true.
Proof.
  split; [exact reachable_at_capture0 | ]. split; [reflexivity | ].
  destruct (only_validated_frames_are_stored (Demo.accept Demo.one_face)
              Demo.at_capture0 [] reachable_at_capture0 eq_refl)
    as (step & pose & instr & photo & r & img & _ & _ & _ & _ & _ & _ & _ &
        Hacc & _).
  - vm_compute. discriminate.
  - exact Hacc.
Defined.

Lemma enrollment_completes_witness :
  starting Demo.start_ok ∧
  ss_page (session (run_all (Demo.start_ok
                               :: replicate 5 (Demo.accept Demo.one_face))
                      initial_world)) = Some "final".
Proof.
  split; [exact toy_starting | ].
  refine (proj1 (enrollment_completes Demo.start_ok
                   (replicate 5 (Demo.accept Demo.one_face))
                   (replicate 5 Demo.one_face) toy_starting _ eq_refl)).
  repeat constructor; exact toy_accepting.
Defined.

Lemma final_page_is_terminal_witness :
  reachable Demo.at_final ∧
  ss_page (session Demo.at_final) = Some "final" ∧
  session (run_all [Demo.start_ok; Demo.accept Demo.one_face] Demo.at_final)
    = session Demo.at_final.
Proof.
  assert (Hp : ss_page (session Demo.at_final) = Some "final")
    by (vm_compute; reflexivity).
  split; [exact reachable_at_final | ]. split; [exact Hp | ].
  exact (final_page_is_terminal [Demo.start_ok; Demo.accept Demo.one_face]
           Demo.at_final reachable_at_final Hp).
Defined.

Lemma identity_is_kept_witness :
  reachable Demo.at_capture0 ∧
  ss_name (session (run_script (Demo.accept Demo.one_face)
                      Demo.at_capture0).2)
    = ss_name (session Demo.at_capture0).
Proof.
  split; [exact reachable_at_capture0 | ].
  refine (proj1 (identity_is_kept (Demo.accept Demo.one_face)
                   Demo.at_capture0 "capture" reachable_at_capture0
                   eq_refl _)).
  discriminate.
Defined.

Lemma wizard_only_moves_forward_witness :
  reachable Demo.at_capture0 ∧
  ∃ page' step' images',
    ss_page (session (run_script (Demo.accept Demo.one_face)
                        Demo.at_capture0).2) = Some page' ∧
    ss_step (session (run_script (Demo.accept Demo.one_face)
                        Demo.at_capture0).2) = Some step' ∧
    ss_images (session (run_script (Demo.accept Demo.one_face)
                          Demo.at_capture0).2) = Some images' ∧
    page_rank "capture" <= page_rank page' ∧ 0 <= step' ∧
    [] `prefix_of` images'.
Proof.
  split; [exact reachable_at_capture0 | ].
  exact (wizard_only_moves_forward (Demo.accept Demo.one_face)
           Demo.at_capture0 "capture" 0 [] reachable_at_capture0
           eq_refl eq_refl eq_refl).
Defined.

Lemma run_script_keeps_images_witness :
  heap (Demo.store_of Demo.one_face) !! 1%positive
    = Some (PilImage Demo.one_face) ∧
  heap (run_all [Demo.accept Demo.two_faces; Demo.idle]
          (Demo.store_of Demo.one_face)) !! 1%positive
    = Some (PilImage Demo.one_face).
Proof.
  split; [reflexivity | ].
  exact (run_script_keeps_images [Demo.accept Demo.two_faces; Demo.idle]
           (Demo.store_of Demo.one_face) 1%positive Demo.one_face eq_refl).
Defined.

Lemma final_page_offers_the_archive_witness :
  reachable Demo.at_final ∧
  ss_page (session Demo.at_final) = Some "final" ∧
  (run_script Demo.idle Demo.at_final).1 = Ret tt.
Proof.
  assert (Hp : ss_page (session Demo.at_final) = Some "final")
    by (vm_compute; reflexivity).
  split; [exact reachable_at_final | ]. split; [exact Hp | ].
  destruct (final_page_offers_the_archive Demo.idle Demo.at_final
              reachable_at_final Hp toy_encodes_accepted)
    as (emp_id & name & images & entries & _ & _ & _ & Hret & _).
  exact Hret.
Defined.

Lemma overlay_preview_pixels_witness :
  heap (Demo.store_of Demo.one_face) !! 1%positive
    = Some (PilImage Demo.one_face) ∧
  ∃ out c r',
    (overlay_face_outline 1%positive (Demo.store_of Demo.one_face)).1
      = Ret out ∧
    drawn (overlay_face_outline 1%positive (Demo.store_of Demo.one_face)).2
      = [c] ∧
    heap (overlay_face_outline 1%positive (Demo.store_of Demo.one_face)).2
      !! out = Some (PilImage r').
Proof.
  split; [reflexivity | ].
  assert (Hret : (overlay_face_outline 1%positive
                    (Demo.store_of Demo.one_face)).1 = Ret 5%positive)
    by (vm_compute; reflexivity).
  destruct (overlay_preview_pixels 1%positive Demo.one_face
              (Demo.store_of Demo.one_face) 5%positive eq_refl Hret)
    as (c & r' & Hd & Hout & _).
  exists 5%positive, c, r'. split; [exact Hret | ].
  split; [exact Hd | exact Hout].
Defined.

Lemma validate_single_face_only_allocates_witness :
  heap (Demo.store_of Demo.one_face) !! 1%positive
    = Some (PilImage Demo.one_face) ∧
  session (validate_single_face 1%positive (Demo.store_of Demo.one_face)).2
    = session (Demo.store_of Demo.one_face).
Proof.
  split; [reflexivity | ].
  exact (proj1 (validate_single_face_only_allocates 1%positive Demo.one_face
                  (Demo.store_of Demo.one_face) eq_refl)).
Defined.

Lemma capture_without_photo_witness :
  ss_page (session Demo.at_capture0) = Some "capture" ∧
  w_photo Demo.idle = None ∧
  (run_script Demo.idle Demo.at_capture0).1 = StopScript.
Proof.
  assert (Hrange : 0 <= 0 < len POSES) by (unfold len; cbn; lia).
  split; [reflexivity | ]. split; [reflexivity | ].
  destruct (capture_without_photo Demo.idle Demo.at_capture0 0 []
              eq_refl eq_refl eq_refl Hrange eq_refl)
    as (pose & instr & _ & Hstop & _).
  exact Hstop.
Defined.

Lemma undecodable_frame_ends_the_run_witness :
  @image_open DemoMore.strict DemoMore.blank = Err UnidentifiedImageError ∧
  (@run_script DemoMore.strict DemoMore.submit_blank DemoMore.at_step0).1
    = Raise UnidentifiedImageError.
Proof.
  assert (Hrange : 0 <= 0 < len POSES) by (unfold len; cbn; lia).
  split; [reflexivity | ].
  destruct (@undecodable_frame_ends_the_run DemoMore.strict
              DemoMore.submit_blank DemoMore.at_step0 0 [] DemoMore.blank
              UnidentifiedImageError eq_refl eq_refl eq_refl Hrange
              eq_refl eq_refl)
    as (pose & instr & _ & Hraise & _).
  exact Hraise.
Defined.

Lemma encoding_failure_returns_no_archive_witness :
  heap (Demo.store_of DemoMore.blank) !! 1%positive
    = Some (PilImage DemoMore.blank) ∧
  jpeg_encode DemoMore.blank = Err (OSError "encoder error") ∧
  ∃ e, build_zip [("front", 1%positive)] []
         (Demo.store_of DemoMore.blank)
       = (Raise e, Demo.store_of DemoMore.blank).
Proof.
  split; [reflexivity | ]. split; [reflexivity | ].
  apply (encoding_failure_returns_no_archive [("front", 1%positive)] []
           (Demo.store_of DemoMore.blank)).
  - intros pose img Hin. apply list_elem_of_singleton in Hin.
    injection Hin as -> ->. exists DemoMore.blank. reflexivity.
  - exists "front", 1%positive, DemoMore.blank, (OSError "encoder error").
    split; [apply list_elem_of_singleton; reflexivity | ].
    split; reflexivity.
Defined.

Lemma rejected_frame_is_not_previewed_witness :
  ss_page (session Demo.at_capture0) = Some "capture" ∧
  drawn (run_script (Demo.accept Demo.two_faces) Demo.at_capture0).2 = [].
Proof.
  assert (Hrange : 0 <= 0 < len POSES) by (unfold len; cbn; lia).
  split; [reflexivity | ].
  destruct (rejected_frame_is_not_previewed (Demo.accept Demo.two_faces)
              Demo.at_capture0 0 [] Demo.two_faces Demo.two_faces
              eq_refl eq_refl eq_refl Hrange eq_refl eq_refl
              toy_rejects_two_faces)
    as (pose & instr & _ & _ & Hd & _).
  exact Hd.
Defined.

Lemma intro_page_waits_for_the_button_witness :
  session initial_world = empty_session ∧
  w_start Demo.idle = false ∧
  ss_page (session (run_script Demo.idle initial_world).2) = Some "intro".
Proof.
  split; [reflexivity | ]. split; [reflexivity | ].
  destruct (intro_page_waits_for_the_button Demo.idle initial_world
              (or_introl eq_refl) eq_refl) as (_ & _ & _ & Hp & _).
  exact Hp.
Defined.
